(** * Fantasy Football Assistant: the list parser and the analysis flow

    A shallow embedding of
    [fantasy_football_assistant_streamlit_app_starts_sits_trades_waivers.py].

    Python's [str] is a sequence of Unicode code points, and both
    [str.splitlines] and [str.strip] are defined on code points (U+2028 is a
    line boundary, U+3000 is whitespace), so a string is a list of code
    points here, not a list of bytes.

    The script talks to the outside: the search service, the completion
    endpoint, the clock and the page. A computation is therefore a function
    of the history of such calls, which it extends; it ends with a value,
    with a raised exception, or with the script stopped. The two services
    and the clock are parameters of a run: each may answer anything, or
    fail, depending on what happened before. The widgets of the page are
    read once, when the button is pressed; the toggles are inputs like the
    text areas, whatever their defaults. *)

From Stdlib Require Import Ascii String DecimalString.
From Stdlib Require Import List NArith ZArith QArith Bool Lia.
Import ListNotations.
#[local] Close Scope Q_scope.

Set Implicit Arguments.

(** ** Strings *)

Definition char := N.
Definition str := list char.

Definition of_ascii (s : String.string) : str :=
  map N_of_ascii (list_ascii_of_string s).

Definition comma : char := 44%N.
Definition semicolon : char := 59%N.
Definition CR : char := 13%N.
Definition LF : char := 10%N.

Definition in_range (lo hi c : char) : bool := (N.leb lo c && N.leb c hi)%bool.

(** The line boundaries of [str.splitlines]: LF, VT, FF, CR, FS, GS, RS, NEL,
    LINE SEPARATOR and PARAGRAPH SEPARATOR. *)
Definition is_linebreak (c : char) : bool :=
  (in_range 10 13 c || in_range 28 30 c || N.eqb c 133
   || N.eqb c 8232 || N.eqb c 8233)%N%bool.

(** The characters [str.strip()] removes, those for which [str.isspace] holds:
    U+0009..U+000D, U+001C..U+001F, U+0020, U+0085, U+00A0, U+1680,
    U+2000..U+200A, U+2028, U+2029, U+202F, U+205F, U+3000. *)
Definition is_space (c : char) : bool :=
  (in_range 9 13 c || in_range 28 31 c || N.eqb c 32 || N.eqb c 133
   || N.eqb c 160 || N.eqb c 5760 || in_range 8192 8202 c
   || N.eqb c 8232 || N.eqb c 8233 || N.eqb c 8239 || N.eqb c 8287
   || N.eqb c 12288)%N%bool.

(** Truth value of a string or a list: false exactly on the empty one. *)
Definition truthy {A} (s : list A) : bool :=
  match s with [] => false | _ :: _ => true end.

(** [s.splitlines()]: the lines of [s] without their line boundaries; CR LF
    counts as one boundary and a boundary that ends the text opens no further
    line. *)
Fixpoint splitlines (s : str) : list str :=
  match s with
  | [] => []
  | c :: s' =>
      if is_linebreak c then
        [] :: match s' with
              | d :: s'' =>
                  if (N.eqb c CR && N.eqb d LF)%bool then splitlines s''
                  else splitlines s'
              | [] => splitlines s'
              end
      else
        match splitlines s' with
        | l :: ls => (c :: l) :: ls
        | [] => [[c]]
        end
  end.

(** [s.replace(old, new)] for one-character [old] and [new]. *)
Definition replace (old new : char) (s : str) : str :=
  map (fun c => if N.eqb c old then new else c) s.

(** Cutting a string at every character that satisfies [p]; the result has one
    more piece than [s] has such characters. *)
Fixpoint split_at (p : char -> bool) (s : str) : list str :=
  match s with
  | [] => [[]]
  | c :: s' =>
      if p c then [] :: split_at p s'
      else match split_at p s' with
           | l :: ls => (c :: l) :: ls
           | [] => [[c]]
           end
  end.

(** [s.split(sep)] for a one-character [sep]. *)
Definition split (sep : char) (s : str) : list str :=
  split_at (N.eqb sep) s.

Fixpoint lstrip (s : str) : str :=
  match s with
  | c :: s' => if is_space c then lstrip s' else s
  | [] => []
  end.

Definition rstrip (s : str) : str := rev (lstrip (rev s)).

(** [s.strip()] *)
Definition strip (s : str) : str := rstrip (lstrip s).

(** [sep.join(l)] *)
Fixpoint join (sep : str) (l : list str) : str :=
  match l with
  | [] => []
  | [s] => s
  | s :: l' => s ++ sep ++ join sep l'
  end.

(** ** The list parser *)

Definition parse_pasted_list (txt : str) : list str :=
  if negb (truthy txt) then []
  else
    let parts :=
      flat_map (fun chunk => map strip (split comma (replace semicolon comma chunk)))
               (splitlines txt) in
    filter truthy parts.

(** The parser as the specification words it: split on newlines, split each
    line on commas and semicolons, trim, drop the empty pieces. A newline is
    any line boundary of the language. *)
Definition is_comma_or_semicolon (c : char) : bool :=
  (N.eqb c comma || N.eqb c semicolon)%bool.

Definition spec_parse (txt : str) : list str :=
  filter truthy
    (map strip (flat_map (split_at is_comma_or_semicolon) (split_at is_linebreak txt))).

(** ** JSON documents and [json.dumps(_, indent=2)] *)

#[warnings="-register-all"]
Inductive json : Type :=
| JNull
| JInt (z : Z)
| JStr (s : str)
| JList (l : list json)
| JDict (kv : list (str * json)).

(** Induction on JSON documents, through the lists they nest. *)
Section JsonInduction.

Variable P : json -> Prop.
Hypothesis HNull : P JNull.
Hypothesis HInt : forall z, P (JInt z).
Hypothesis HStr : forall s, P (JStr s).
Hypothesis HList : forall l, Forall P l -> P (JList l).
Hypothesis HDict : forall kv, Forall (fun p => P (snd p)) kv -> P (JDict kv).

Fixpoint json_induction (j : json) : P j :=
  match j with
  | JNull => HNull
  | JInt z => HInt z
  | JStr s => HStr s
  | JList l =>
      HList ((fix all (l : list json) : Forall P l :=
                match l with
                | [] => Forall_nil P
                | x :: r => Forall_cons x (json_induction x) (all r)
                end) l)
  | JDict kv =>
      HDict ((fix all (kv : list (str * json))
               : Forall (fun p => P (snd p)) kv :=
                match kv with
                | [] => Forall_nil _
                | (k, v) :: r =>
                    Forall_cons (P := fun p => P (snd p)) (k, v)
                      (json_induction v) (all r)
                end) kv)
  end.

End JsonInduction.

(** [repr] of an integer. *)
Definition repr_int (z : Z) : str := of_ascii (NilZero.string_of_int (Z.to_int z)).

Definition hex_digit (n : N) : char :=
  (if n <? 10 then 48 + n else 87 + n)%N.

(** ['\\u{0:04x}'.format(n)] *)
Definition u_escape (n : N) : str :=
  [92; 117; hex_digit (n / 4096 mod 16); hex_digit (n / 256 mod 16);
   hex_digit (n / 16 mod 16); hex_digit (n mod 16)]%N.

(** One character of a JSON string under [ensure_ascii=True]: the short
    escapes, the printable ASCII characters as they are, everything else as
    [\uXXXX], with a surrogate pair above the basic plane. *)
Definition escape_char (c : char) : str :=
  (if c =? 34 then [92; 34]
   else if c =? 92 then [92; 92]
   else if c =? 10 then [92; 110]
   else if c =? 13 then [92; 114]
   else if c =? 9 then [92; 116]
   else if c =? 8 then [92; 98]
   else if c =? 12 then [92; 102]
   else if in_range 32 126 c then [c]
   else if c <? 65536 then u_escape c
   else
     let n := c - 65536 in
     u_escape (N.lor 55296 (N.land (N.shiftr n 10) 1023))
     ++ u_escape (N.lor 56320 (N.land n 1023)))%N.

Definition json_string (s : str) : str :=
  [34%N] ++ flat_map escape_char s ++ [34%N].

(** A line feed and the indentation of nesting depth [lvl]. *)
Definition newline_indent (lvl : nat) : str := LF :: repeat 32%N (2 * lvl).

Fixpoint dumps (lvl : nat) (j : json) : str :=
  match j with
  | JNull => of_ascii "null"
  | JInt z => repr_int z
  | JStr s => json_string s
  | JList l =>
      match l with
      | [] => of_ascii "[]"
      | _ =>
          of_ascii "[" ++ newline_indent (S lvl)
          ++ join (comma :: newline_indent (S lvl)) (map (dumps (S lvl)) l)
          ++ newline_indent lvl ++ of_ascii "]"
      end
  | JDict kv =>
      match kv with
      | [] => of_ascii "{}"
      | _ =>
          of_ascii "{" ++ newline_indent (S lvl)
          ++ join (comma :: newline_indent (S lvl))
               (map (fun p => match p with
                              | (k, v) => json_string k ++ of_ascii ": " ++ dumps (S lvl) v
                              end) kv)
          ++ newline_indent lvl ++ of_ascii "}"
      end
  end.

(** [json.dumps(j, indent=2)] *)
Definition json_dumps (j : json) : str := dumps 0 j.

(** ** Exceptions, events and the effect monad *)

(** An instance of [Exception], with its class name and [str(e)]. *)
Record exn : Type := Exception { exn_class : str; exn_str : str }.

Definition IndexError : exn :=
  Exception (of_ascii "IndexError") (of_ascii "list index out of range").

(** [s.encode("utf-8")]: a lone surrogate cannot be encoded. *)
Definition encode_char (c : char) : option (list N) :=
  (if c <? 128 then Some [c]
   else if c <? 2048 then Some [N.lor 192 (N.shiftr c 6); N.lor 128 (N.land c 63)]
   else if in_range 55296 57343 c then None
   else if c <? 65536 then
     Some [N.lor 224 (N.shiftr c 12); N.lor 128 (N.land (N.shiftr c 6) 63);
           N.lor 128 (N.land c 63)]
   else
     Some [N.lor 240 (N.shiftr c 18); N.lor 128 (N.land (N.shiftr c 12) 63);
           N.lor 128 (N.land (N.shiftr c 6) 63); N.lor 128 (N.land c 63)])%N.

Definition UnicodeEncodeError (pos : nat) (c : char) : exn :=
  Exception (of_ascii "UnicodeEncodeError")
    (of_ascii "'utf-8' codec can't encode character '" ++ u_escape c
     ++ of_ascii "' in position " ++ repr_int (Z.of_nat pos)
     ++ of_ascii ": surrogates not allowed").

Fixpoint encode_from (pos : nat) (s : str) : exn + list N :=
  match s with
  | [] => inr []
  | c :: s' =>
      match encode_char c with
      | None => inl (UnicodeEncodeError pos c)
      | Some bs =>
          match encode_from (S pos) s' with
          | inl e => inl e
          | inr rest => inr (bs ++ rest)
          end
      end
  end.

Definition encode_utf8 (s : str) : exn + list N := encode_from 0 s.

(** The request of [service.cse().list(q=, cx=, num=).execute()] on a client
    built with [developerKey]. *)
Record search_request : Type := SearchRequest {
  sr_developerKey : str;
  sr_q : str;
  sr_cx : str;
  sr_num : nat }.

(** An item of the search response; a key may be missing. *)
Record search_item : Type := SearchItem {
  it_title : option str;
  it_link : option str;
  it_snippet : option str }.

(** The search response; the key ["items"] may be missing. *)
Record search_response : Type := SearchResponse {
  res_items : option (list search_item) }.

(** A [{"title":, "link":, "snippet":}] entry of the snippet map. *)
Record news_snippet : Type := NewsSnippet {
  title : str;
  link : str;
  snippet : str }.

(** The request of [client.chat.completions.create]. *)
Record completion_request : Type := CompletionRequest {
  cr_api_key : str;
  cr_model : str;
  cr_messages : list (str * str);
  cr_temperature : Q }.

(** The completion response: [resp.choices], each with its
    [message.content], which may be [None]. *)
Record completion_response : Type := CompletionResponse {
  choices : list (option str) }.

(** What a run does to the outside: the calls to the two services and to the
    page. *)
Inductive event : Type :=
| EvSearch (req : search_request)
| EvCompletion (req : completion_request)
| EvError (msg : str)
| EvProgressStart (text : str)
| EvProgress (i total : nat) (text : str)
| EvProgressEmpty
| EvStatus (label : str)
| EvDivider
| EvSubheader (text : str)
| EvWrite (analysis : option str)
| EvDownloadButton (label : str) (data : list N) (file_name mime : str).

Definition trace := list event.

(** How a computation ends: with a value, with a raised exception, or with the
    script stopped by [st.stop()]. *)
Inductive result (A : Type) : Type :=
| Ret (a : A)
| Raise (e : exn)
| Halt.

Arguments Ret {A} a.
Arguments Raise {A} e.
Arguments Halt {A}.

Definition M (A : Type) : Type := trace -> result A * trace.

Definition ret {A} (a : A) : M A := fun tr => (Ret a, tr).

Definition bind {A B} (m : M A) (k : A -> M B) : M B :=
  fun tr =>
    match m tr with
    | (Ret a, tr') => k a tr'
    | (Raise e, tr') => (Raise e, tr')
    | (Halt, tr') => (Halt, tr')
    end.

Notation "x <- m ;; k" := (bind m (fun x => k))
  (at level 61, m at next level, right associativity).
Notation "m ;;; k" := (bind m (fun _ => k))
  (at level 61, right associativity).

Definition raise {A} (e : exn) : M A := fun tr => (Raise e, tr).
Definition stop {A} : M A := fun tr => (Halt, tr).
Definition emit (ev : event) : M unit := fun tr => (Ret tt, tr ++ [ev]).

(** [try: m except Exception as e: h e]; stopping the script is not an
    [Exception] and passes through. *)
Definition try_except {A} (m : M A) (h : exn -> M A) : M A :=
  fun tr =>
    match m tr with
    | (Raise e, tr') => h e tr'
    | r => r
    end.

(** The configuration read from the environment at start-up, and the outside
    world: each service answers a request, given the run so far, with a
    response or a raised exception. *)
Record env : Type := Env {
  OPENAI_API_KEY : str;
  GOOGLE_CSE_ID : str;
  GOOGLE_API_KEY : str;
  search_service : trace -> search_request -> exn + search_response;
  completion_service : trace -> completion_request -> exn + completion_response;
  clock : trace -> Z }.

Definition call_search (e : env) (req : search_request) : M search_response :=
  fun tr =>
    match search_service e tr req with
    | inl ex => (Raise ex, tr ++ [EvSearch req])
    | inr res => (Ret res, tr ++ [EvSearch req])
    end.

Definition call_completion (e : env) (req : completion_request)
  : M completion_response :=
  fun tr =>
    match completion_service e tr req with
    | inl ex => (Raise ex, tr ++ [EvCompletion req])
    | inr res => (Ret res, tr ++ [EvCompletion req])
    end.

(** [int(time.time())] *)
Definition time_now (e : env) : M Z := fun tr => (Ret (clock e tr), tr).

(** ** The two service clients *)

(** [it.get(key, "")] *)
Definition get_default (o : option str) : str :=
  match o with Some v => v | None => [] end.

(** [query + " NFL news injury status"] *)
Definition news_query (name : str) : str :=
  name ++ of_ascii " NFL news injury status".

(** [build("customsearch", "v1", developerKey=GOOGLE_API_KEY)] and
    [service.cse().list(q=..., cx=GOOGLE_CSE_ID, num=num)]. *)
Definition search_request_for (e : env) (query : str) (num : nat)
  : search_request :=
  {| sr_developerKey := GOOGLE_API_KEY e;
     sr_q := news_query query;
     sr_cx := GOOGLE_CSE_ID e;
     sr_num := num |}.

Definition google_news_snippets (e : env) (query : str) (num : nat)
  : M (list news_snippet) :=
  if (negb (truthy (GOOGLE_CSE_ID e) && truthy (GOOGLE_API_KEY e))
      || negb (truthy query))%bool
  then ret []
  else
    try_except
      (res <- call_search e (search_request_for e query num) ;;
       let items := match res_items res with Some l => l | None => [] end in
       ret (map (fun it => {| title := get_default (it_title it);
                              link := get_default (it_link it);
                              snippet := get_default (it_snippet it) |})
                items))
      (fun _ => ret []).

(** ["(AI disabled — add OPENAI_API_KEY to enable analysis.)"] *)
Definition ai_disabled_placeholder : str :=
  of_ascii "(AI disabled " ++ [8212%N]
  ++ of_ascii " add OPENAI_API_KEY to enable analysis.)".

(** [f"(AI error: {e})"] *)
Definition ai_error_placeholder (ex : exn) : str :=
  of_ascii "(AI error: " ++ exn_str ex ++ of_ascii ")".

Definition default_temperature : Q := (2 # 10)%Q.

(** [OpenAI(api_key=OPENAI_API_KEY)] and the arguments of
    [client.chat.completions.create]. *)
Definition completion_request_for (e : env) (system_prompt user_prompt : str)
    (temperature : Q) : completion_request :=
  {| cr_api_key := OPENAI_API_KEY e;
     cr_model := of_ascii "gpt-4o-mini";
     cr_messages := [(of_ascii "system", system_prompt);
                     (of_ascii "user", user_prompt)];
     cr_temperature := temperature |}.

(** The value is [resp.choices[0].message.content], which is [None] when the
    message has no content. *)
Definition openai_complete (e : env) (system_prompt user_prompt : str)
    (temperature : Q) : M (option str) :=
  if negb (truthy (OPENAI_API_KEY e)) then ret (Some ai_disabled_placeholder)
  else
    try_except
      (resp <- call_completion e
                 (completion_request_for e system_prompt user_prompt temperature) ;;
       match choices resp with
       | c :: _ => ret c
       | [] => raise IndexError
       end)
      (fun ex => ret (Some (ai_error_placeholder ex))).

(** ** The analysis flow *)

Inductive scoring_format : Type := HalfPPR | PPR | Standard.

Definition scoring_name (s : scoring_format) : str :=
  match s with
  | HalfPPR => of_ascii "Half-PPR"
  | PPR => of_ascii "PPR"
  | Standard => of_ascii "Standard"
  end.

(** The values of the widgets when the button is pressed. The slider and the
    number field are created with integer bounds and return integers, so
    [int(week)] is [week]. *)
Record inputs : Type := Inputs {
  use_ai : bool;
  use_google : bool;
  scoring : scoring_format;
  risk_tolerance : Z;
  week : Z;
  sleeper_league_id : str;
  starters_txt : str;
  bench_txt : str;
  fa_txt : str;
  trade_targets_txt : str;
  notes : str }.

(** The snippet map, a [dict] from name to snippets: an assignment to a key
    that is present replaces its value in place, a new key goes last. *)
Definition snippet_map := list (str * list news_snippet).

Fixpoint str_eqb (a b : str) : bool :=
  match a, b with
  | [], [] => true
  | x :: a', y :: b' => (N.eqb x y && str_eqb a' b')%bool
  | _, _ => false
  end.

Fixpoint dict_set (k : str) (v : list news_snippet) (d : snippet_map)
  : snippet_map :=
  match d with
  | [] => [(k, v)]
  | (k', v') :: d' =>
      if str_eqb k' k then (k', v) :: d' else (k', v') :: dict_set k v d'
  end.

(** [[n for i, n in enumerate(names) if n and i < 25]] *)
Fixpoint keep_named_below (i : nat) (names : list str) : list str :=
  match names with
  | [] => []
  | n :: rest =>
      if (truthy n && Nat.ltb i 25)%bool then n :: keep_named_below (S i) rest
      else keep_named_below (S i) rest
  end.

Definition names_for_news (starters bench trade_targets free_agents : list str)
  : list str :=
  keep_named_below 0 (starters ++ bench ++ trade_targets ++ firstn 10 free_agents).

(** The body of [for i, name in enumerate(names_for_news, start=1)], from
    position [i] on, over a bar of [total] steps. *)
Fixpoint fetch_news (e : env) (total i : nat) (names : list str)
    (snippets : snippet_map) : M snippet_map :=
  match names with
  | [] => ret snippets
  | name :: rest =>
      found <- google_news_snippets e name 2 ;;
      emit (EvProgress i total (of_ascii "News: " ++ name)) ;;;
      fetch_news e total (S i) rest (dict_set name found snippets)
  end.

Definition system_prompt : str :=
  of_ascii "You are a sharp fantasy football analyst. Give clear, concise bullets. "
  ++ of_ascii "Weigh recent usage, health, floor/ceiling, matchup, and roster construction. "
  ++ of_ascii "Tailor advice to the scoring format and risk tolerance.".

Definition snippet_json (s : news_snippet) : json :=
  JDict [(of_ascii "title", JStr (title s));
         (of_ascii "link", JStr (link s));
         (of_ascii "snippet", JStr (snippet s))].

Definition names_json (l : list str) : json := JList (map JStr l).

Definition user_payload (i : inputs)
    (starters bench free_agents trade_targets : list str)
    (snippets : snippet_map) : json :=
  JDict [(of_ascii "scoring", JStr (scoring_name (scoring i)));
         (of_ascii "risk_tolerance", JInt (risk_tolerance i));
         (of_ascii "week", JInt (week i));
         (of_ascii "starters", names_json starters);
         (of_ascii "bench", names_json bench);
         (of_ascii "free_agents", names_json free_agents);
         (of_ascii "trade_targets", names_json trade_targets);
         (of_ascii "notes", JStr (notes i));
         (of_ascii "google_snippets",
           JDict (map (fun kv => (fst kv, JList (map snippet_json (snd kv))))
                      snippets))].

Definition user_prompt (payload : json) : str :=
  of_ascii "Analyze my roster for this week." ++ [LF]
  ++ of_ascii "Tasks:" ++ [LF]
  ++ of_ascii "1) START/SIT: Suggest swaps to maximize expected points and balance risk." ++ [LF]
  ++ of_ascii "2) WAIVERS: Rank top 5-10 adds from my FA list with quick reasoning and suggested FAAB/priority." ++ [LF]
  ++ of_ascii "3) TRADES: Offer 2-4 realistic trade ideas (give + get) with reasoning." ++ [LF]
  ++ of_ascii "4) WATCHLIST: 5 stash names from FA for upside." ++ [LF]
  ++ of_ascii "Keep it under ~300 words per section." ++ [LF; LF]
  ++ of_ascii "INPUT JSON:" ++ [LF] ++ json_dumps payload ++ [LF].

(** ["(AI disabled) Use the sections below as a template for manual
    notes.\n\n• START/SIT: …\n• WAIVERS: …\n• TRADES: …\n• WATCHLIST: …"] *)
Definition manual_template : str :=
  of_ascii "(AI disabled) Use the sections below as a template for manual notes."
  ++ [LF; LF]
  ++ [8226%N] ++ of_ascii " START/SIT: " ++ [8230%N; LF]
  ++ [8226%N] ++ of_ascii " WAIVERS: " ++ [8230%N; LF]
  ++ [8226%N] ++ of_ascii " TRADES: " ++ [8230%N; LF]
  ++ [8226%N] ++ of_ascii " WATCHLIST: " ++ [8230%N].

Definition analysis_json (analysis : option str) : json :=
  match analysis with Some s => JStr s | None => JNull end.

Definition settings_json (i : inputs) : json :=
  JDict [(of_ascii "scoring", JStr (scoring_name (scoring i)));
         (of_ascii "risk_tolerance", JInt (risk_tolerance i));
         (of_ascii "week", JInt (week i))].

Definition export_json (now : Z) (i : inputs) (payload : json)
    (analysis : option str) : json :=
  JDict [(of_ascii "timestamp", JInt now);
         (of_ascii "settings", settings_json i);
         (of_ascii "inputs", payload);
         (of_ascii "analysis", analysis_json analysis)].

(** What a completed run leaves in the script's variables. *)
Record report : Type := Report {
  rep_snippets : snippet_map;
  rep_user_prompt : str;
  rep_analysis : option str;
  rep_export : json }.

(** [st.error("Add at least a few starters to analyze.")] *)
Definition error_event : event :=
  EvError (of_ascii "Add at least a few starters to analyze.").

(** [if not starters: st.error(...); st.stop()] *)
Definition require_starters (starters : list str) : M unit :=
  if negb (truthy starters)
  then emit error_event ;;; stop
  else ret tt.

(** [snippets = {}] and the [if use_google:] block. *)
Definition pull_news (e : env) (i : inputs)
    (starters bench trade_targets free_agents : list str) : M snippet_map :=
  if use_google i then
    let names := names_for_news starters bench trade_targets free_agents in
    emit (EvProgressStart (of_ascii "Pulling news" ++ [8230%N])) ;;;
    snippets <- fetch_news e (length names) 1 names [] ;;
    emit EvProgressEmpty ;;;
    ret snippets
  else ret [].

(** The [if use_ai: ... else: ...] block. *)
Definition analysis_text (e : env) (i : inputs) (prompt : str) : M (option str) :=
  if use_ai i then
    emit (EvStatus (of_ascii "Thinking (AI)" ++ [8230%N])) ;;;
    openai_complete e system_prompt prompt default_temperature
  else ret (Some manual_template).

(** [st.download_button(..., data=json.dumps(export, indent=2).encode("utf-8"), ...)] *)
Definition download_button (export : json) : M unit :=
  data <- (match encode_utf8 (json_dumps export) with
           | inl ex => raise ex
           | inr bytes => ret bytes
           end) ;;
  emit (EvDownloadButton ([128229%N] ++ of_ascii " Download JSON report") data
          (of_ascii "fantasy_assistant_report.json")
          (of_ascii "application/json")).

(** The body of [if st.button("Analyze my week"):]. *)
Definition analyze (e : env) (i : inputs) : M report :=
  let starters := parse_pasted_list (starters_txt i) in
  let bench := parse_pasted_list (bench_txt i) in
  let free_agents := parse_pasted_list (fa_txt i) in
  let trade_targets := parse_pasted_list (trade_targets_txt i) in
  require_starters starters ;;;
  snippets <- pull_news e i starters bench trade_targets free_agents ;;
  let payload := user_payload i starters bench free_agents trade_targets snippets in
  let prompt := user_prompt payload in
  analysis <- analysis_text e i prompt ;;
  emit EvDivider ;;;
  emit (EvSubheader (of_ascii "Results")) ;;;
  emit (EvWrite analysis) ;;;
  now <- time_now e ;;
  let export := export_json now i payload analysis in
  download_button export ;;;
  ret {| rep_snippets := snippets;
         rep_user_prompt := prompt;
         rep_analysis := analysis;
         rep_export := export |}.

(** A run of the analysis from the empty history. *)
Definition run (e : env) (i : inputs) : result report * trace := analyze e i [].

(** ** Reading a run *)

(** The queries of the search calls of a run, in order. *)
Fixpoint search_queries (tr : trace) : list str :=
  match tr with
  | [] => []
  | EvSearch req :: tr' => sr_q req :: search_queries tr'
  | _ :: tr' => search_queries tr'
  end.

Definition is_completion (ev : event) : bool :=
  match ev with EvCompletion _ => true | _ => false end.

Definition is_search (ev : event) : bool :=
  match ev with EvSearch _ => true | _ => false end.

Definition is_progress (ev : event) : bool :=
  match ev with EvProgress _ _ _ => true | _ => false end.

Definition is_output (ev : event) : bool :=
  match ev with EvWrite _ | EvDownloadButton _ _ _ _ => true | _ => false end.

(** A name as the parser returns it: not empty, trimmed, and free of
    separators and line boundaries. *)
Definition clean (p : str) : Prop :=
  p <> [] /\ strip p = p
  /\ forallb (fun c => negb (is_comma_or_semicolon c)) p = true
  /\ forallb (fun c => negb (is_linebreak c)) p = true.

(** Whitespace and separators: the characters that cannot start a name. *)
Definition is_blank (c : char) : bool :=
  (is_space c || is_comma_or_semicolon c)%bool.

(** Text that [encode("utf-8")] maps to itself, byte for code point. *)
Definition is_ascii (s : str) : bool := forallb (fun c => N.ltb c 128) s.

(** Whether [google_news_snippets] calls the service for a name. *)
Definition searchable (e : env) (query : str) : bool :=
  (truthy (GOOGLE_CSE_ID e) && truthy (GOOGLE_API_KEY e) && truthy query)%bool.

(** The events of the news loop over [names], from position [i] on. *)
Fixpoint fetch_events (e : env) (total i : nat) (names : list str) : trace :=
  match names with
  | [] => []
  | name :: rest =>
      (if searchable e name then [EvSearch (search_request_for e name 2)] else [])
      ++ EvProgress i total (of_ascii "News: " ++ name)
      :: fetch_events e total (S i) rest
  end.

Definition news_events (e : env) (i : inputs) (names : list str) : trace :=
  if use_google i then
    EvProgressStart (of_ascii "Pulling news" ++ [8230%N])
    :: fetch_events e (length names) 1 names ++ [EvProgressEmpty]
  else [].

Definition ai_events (e : env) (i : inputs) (prompt : str) : trace :=
  if use_ai i then
    EvStatus (of_ascii "Thinking (AI)" ++ [8230%N])
    :: (if truthy (OPENAI_API_KEY e)
        then [EvCompletion
                (completion_request_for e system_prompt prompt default_temperature)]
        else [])
  else [].

Definition download_event (export : json) : event :=
  EvDownloadButton ([128229%N] ++ of_ascii " Download JSON report")
    (json_dumps export)
    (of_ascii "fantasy_assistant_report.json")
    (of_ascii "application/json").

(** The same inputs with another league identifier. *)
Definition with_league_id (i : inputs) (v : str) : inputs :=
  {| use_ai := use_ai i;
     use_google := use_google i;
     scoring := scoring i;
     risk_tolerance := risk_tolerance i;
     week := week i;
     sleeper_league_id := v;
     starters_txt := starters_txt i;
     bench_txt := bench_txt i;
     fa_txt := fa_txt i;
     trade_targets_txt := trade_targets_txt i;
     notes := notes i |}.

(** Looking a key up in a JSON object. *)
Fixpoint assoc (k : str) (kv : list (str * json)) : option json :=
  match kv with
  | [] => None
  | (k', v) :: rest => if str_eqb k' k then Some v else assoc k rest
  end.

Definition json_get (k : str) (j : json) : option json :=
  match j with JDict kv => assoc k kv | _ => None end.

(** The value of [openai_complete] after history [tr]. *)
Definition completion_value (e : env) (system_prompt user_prompt : str)
    (temperature : Q) (tr : trace) : option str :=
  if truthy (OPENAI_API_KEY e) then
    match completion_service e tr
            (completion_request_for e system_prompt user_prompt temperature) with
    | inl ex => Some (ai_error_placeholder ex)
    | inr resp =>
        match choices resp with
        | c :: _ => c
        | [] => Some (ai_error_placeholder IndexError)
        end
    end
  else Some ai_disabled_placeholder.

(** What the page shows once the analysis text is there. *)
Definition results_events (analysis : option str) : trace :=
  [EvDivider; EvSubheader (of_ascii "Results"); EvWrite analysis].

(** The snippet map of a completed run. *)
Definition final_snippets (x : result report * trace) : option snippet_map :=
  match fst x with
  | Ret r => Some (rep_snippets r)
  | _ => None
  end.

(** The names a run sends to the search service. *)
Definition searched (e : env) (i : inputs) : list str :=
  if (truthy (parse_pasted_list (starters_txt i)) && use_google i
      && (truthy (GOOGLE_CSE_ID e) && truthy (GOOGLE_API_KEY e)))%bool
  then names_for_news (parse_pasted_list (starters_txt i))
         (parse_pasted_list (bench_txt i))
         (parse_pasted_list (trade_targets_txt i))
         (parse_pasted_list (fa_txt i))
  else [].

(** A world to try the program in: no credentials, both services out of
    reach, the clock at a fixed second. *)
Definition unreachable : exn :=
  Exception (of_ascii "ConnectionError") (of_ascii "unreachable").

Definition offline : env :=
  {| OPENAI_API_KEY := [];
     GOOGLE_CSE_ID := [];
     GOOGLE_API_KEY := [];
     search_service := fun _ _ => inl unreachable;
     completion_service := fun _ _ => inl unreachable;
     clock := fun _ => 1700000000%Z |}.

(** The same world with all three credentials set. *)
Definition keyed : env :=
  {| OPENAI_API_KEY := of_ascii "sk-test";
     GOOGLE_CSE_ID := of_ascii "cx-test";
     GOOGLE_API_KEY := of_ascii "key-test";
     search_service := fun _ _ => inl unreachable;
     completion_service := fun _ _ => inl unreachable;
     clock := fun _ => 1700000000%Z |}.

(** A form filled with starters only. *)
Definition form (ai google : bool) (starters : str) : inputs :=
  {| use_ai := ai;
     use_google := google;
     scoring := HalfPPR;
     risk_tolerance := 5;
     week := 1;
     sleeper_league_id := [];
     starters_txt := starters;
     bench_txt := [];
     fa_txt := [];
     trade_targets_txt := [];
     notes := [] |}.

(** [count] names ["P1, P2, ..."], comma-joined. *)
Definition numbered_names (count : nat) : str :=
  join (of_ascii ", ")
    (map (fun k => of_ascii "P" ++ repr_int (Z.of_nat k)) (seq 1 count)).

(** ** Vocabulary of the further properties *)

(** The characters that end a name: line boundaries, commas and semicolons. *)
Definition is_delimiter (c : char) : bool :=
  (is_linebreak c || is_comma_or_semicolon c)%bool.

(** [p] is a contiguous part of [s]: [p == s[i:j]] for some [i] and [j]. *)
Definition substring_of (p s : str) : Prop := exists a b, s = a ++ p ++ b.

(** The snippets [google_news_snippets] makes of a response: one per item,
    a missing key read as the empty string. *)
Definition snippets_of_response (res : search_response) : list news_snippet :=
  map (fun it => {| title := get_default (it_title it);
                    link := get_default (it_link it);
                    snippet := get_default (it_snippet it) |})
      (match res_items res with Some l => l | None => [] end).

(** The value of [google_news_snippets] after history [tr]. *)
Definition snippets_value (e : env) (query : str) (num : nat) (tr : trace)
  : list news_snippet :=
  if searchable e query then
    match search_service e tr (search_request_for e query num) with
    | inl _ => []
    | inr res => snippets_of_response res
    end
  else [].

(** The positions [(i, total)] the progress bar is set to, in order. *)
Fixpoint progress_steps (tr : trace) : list (nat * nat) :=
  match tr with
  | [] => []
  | EvProgress i total _ :: tr' => (i, total) :: progress_steps tr'
  | _ :: tr' => progress_steps tr'
  end.

(** The completion requests of a run, in order. *)
Fixpoint completion_requests (tr : trace) : list completion_request :=
  match tr with
  | [] => []
  | EvCompletion req :: tr' => req :: completion_requests tr'
  | _ :: tr' => completion_requests tr'
  end.

(** The search requests of a run, in order. *)
Fixpoint search_requests (tr : trace) : list search_request :=
  match tr with
  | [] => []
  | EvSearch req :: tr' => req :: search_requests tr'
  | _ :: tr' => search_requests tr'
  end.

(** A world in which both services answer: the search with three items, one
    of them without a link, the completion with two choices. *)
Definition answering : env :=
  {| OPENAI_API_KEY := of_ascii "sk-test";
     GOOGLE_CSE_ID := of_ascii "cx-test";
     GOOGLE_API_KEY := of_ascii "key-test";
     search_service := fun _ req =>
       inr {| res_items :=
                Some [ {| it_title := Some (of_ascii "Out for week 3");
                          it_link := Some (of_ascii "https://example.org/a");
                          it_snippet := Some (sr_q req) |};
                       {| it_title := Some (of_ascii "Back at practice");
                          it_link := None;
                          it_snippet := None |};
                       {| it_title := None;
                          it_link := None;
                          it_snippet := None |} ] |};
     completion_service := fun _ _ =>
       inr {| choices := [Some (of_ascii "Start Bo."); Some (of_ascii "Sit Bo.")] |};
     clock := fun _ => 1700000000%Z |}.

(** A world with credentials in which the search answers with as many items
    as it is asked for, at most. *)
Definition modest : env :=
  {| OPENAI_API_KEY := [];
     GOOGLE_CSE_ID := of_ascii "cx-test";
     GOOGLE_API_KEY := of_ascii "key-test";
     search_service := fun _ req =>
       inr {| res_items :=
                Some (repeat {| it_title := Some (sr_q req);
                                it_link := None;
                                it_snippet := None |} (sr_num req)) |};
     completion_service := fun _ _ => inl unreachable;
     clock := fun _ => 1700000000%Z |}.

(** * Properties *)

(** ** The primitives on small inputs *)

Example parse_ex1 :
  parse_pasted_list (of_ascii "QB Bo, RB Al") = [of_ascii "QB Bo"; of_ascii "RB Al"].
Proof. reflexivity. Qed.

Example parse_ex2 :
  parse_pasted_list (of_ascii " a ;; b,") ++ parse_pasted_list [13; 10; 32; 44; 10]%N
  = [of_ascii "a"; of_ascii "b"].
Proof. reflexivity. Qed.

(** ["a\r\nb\n\nc\r".splitlines() == ["a", "b", "", "c"]] *)
Example splitlines_ex :
  splitlines [97; 13; 10; 98; 10; 10; 99; 13]%N = [[97]; [98]; []; [99]]%N.
Proof. reflexivity. Qed.

(** ["a\u2028 b\x0bc"] holds three names: the line separator and the
    vertical tab end a line. *)
Example parse_ex3 :
  parse_pasted_list [97; 8232; 32; 98; 11; 99]%N = [[97]; [98]; [99]]%N.
Proof. reflexivity. Qed.

(** [json.dumps({"k\n": [1, [], "\u00e9"]}, indent=2)] *)
Example json_dumps_ex :
  json_dumps (JDict [([107; 10]%N, JList [JInt 1; JList []; JStr [233%N]])])
  = of_ascii "{" ++ [LF] ++ of_ascii "  " ++ [34%N] ++ of_ascii "k\n" ++ [34%N]
    ++ of_ascii ": [" ++ [LF] ++ of_ascii "    1," ++ [LF] ++ of_ascii "    [],"
    ++ [LF] ++ of_ascii "    " ++ [34%N] ++ of_ascii "\u00e9" ++ [34%N]
    ++ [LF] ++ of_ascii "  ]" ++ [LF] ++ of_ascii "}".
Proof. reflexivity. Qed.

(** ** Splitting and trimming *)

Section Splitting.

Variable p : char -> bool.

Lemma split_at_nonempty (s : str) : split_at p s <> [].
Proof.
  destruct s as [|c s]; simpl; [discriminate|].
  destruct (p c); [discriminate|].
  destruct (split_at p s); discriminate.
Qed.

(** A string without cut points is its own single piece. *)
Lemma split_at_none (s : str) :
  forallb (fun c => negb (p c)) s = true -> split_at p s = [s].
Proof.
  induction s as [|c s IH]; simpl; [reflexivity|].
  intros H. apply andb_prop in H. destruct H as [Hc Hs].
  apply negb_true_iff in Hc. rewrite Hc, (IH Hs). reflexivity.
Qed.

Lemma split_at_app (s rest : str) (c : char) :
  forallb (fun c => negb (p c)) s = true -> p c = true ->
  split_at p (s ++ c :: rest) = s :: split_at p rest.
Proof.
  intros Hs Hc. induction s as [|d s IH]; simpl.
  - rewrite Hc. reflexivity.
  - simpl in Hs. apply andb_prop in Hs. destruct Hs as [Hd Hs].
    apply negb_true_iff in Hd. rewrite Hd, (IH Hs). reflexivity.
Qed.

(** No piece holds a cut point, and every character of a piece comes from
    the text. *)
Lemma split_at_pieces (s : str) :
  Forall (fun l => forallb (fun c => negb (p c)) l = true /\ incl l s)
         (split_at p s).
Proof.
  induction s as [|c s IH]; simpl.
  - constructor; [split; [reflexivity | apply incl_refl] | constructor].
  - assert (Hw : Forall (fun l => forallb (fun c => negb (p c)) l = true
                                  /\ incl l (c :: s)) (split_at p s)).
    { eapply Forall_impl; [|exact IH]. intros l [H1 H2]. split; [exact H1|].
      apply incl_tl. exact H2. }
    destruct (p c) eqn:Hc.
    + constructor; [split; [reflexivity | apply incl_nil_l] | exact Hw].
    + destruct (split_at p s) as [|l ls]; constructor.
      * split; [simpl; rewrite Hc; reflexivity|].
        intros x [Hx|[]]. left. exact Hx.
      * constructor.
      * inversion Hw as [|? ? [H1 H2] Hls]; subst. split.
        -- simpl. rewrite Hc. exact H1.
        -- intros x [Hx|Hx]; [left; exact Hx | apply H2; exact Hx].
      * inversion Hw; assumption.
Qed.

End Splitting.

(** Replacing the semicolons and splitting on commas is splitting on both. *)
Lemma split_replace (chunk : str) :
  split comma (replace semicolon comma chunk)
  = split_at is_comma_or_semicolon chunk.
Proof.
  unfold split, replace, is_comma_or_semicolon.
  induction chunk as [|c chunk IH]; cbn [map split_at]; [reflexivity|].
  rewrite IH. destruct (N.eqb_spec c semicolon) as [->|Hs].
  - rewrite N.eqb_refl, orb_true_r. reflexivity.
  - rewrite orb_false_r, (N.eqb_sym comma c). reflexivity.
Qed.

(** [splitlines] and the cut at every line boundary begin with the same line
    and differ, after it, by empty lines only. *)
Lemma splitlines_split_at (s : str) :
  s <> [] ->
  exists l ls ls',
    splitlines s = l :: ls /\ split_at is_linebreak s = l :: ls'
    /\ filter (A:=str) (@truthy char) ls = filter (A:=str) (@truthy char) ls'.
Proof.
  induction s as [|c s IH]; [congruence|]. intros _.
  destruct s as [|d s].
  - simpl. destruct (is_linebreak c).
    + exists [], [], [[]]. auto.
    + exists [c], [], []. auto.
  - destruct IH as (l & ls & ls' & Hl & Hs & Hf); [discriminate|].
    cbn [splitlines split_at] in *.
    destruct (is_linebreak c) eqn:Hc.
    + exists [], (if (N.eqb c CR && N.eqb d LF)%bool then splitlines s
                  else l :: ls), (l :: ls').
      split; [|split].
      * rewrite <- Hl. reflexivity.
      * rewrite <- Hs. reflexivity.
      * destruct (N.eqb c CR && N.eqb d LF)%bool eqn:Hcr.
        -- apply andb_prop in Hcr. destruct Hcr as [_ Hd].
           apply N.eqb_eq in Hd. subst d.
           change (is_linebreak LF) with true in Hl, Hs.
           injection Hs as <- <-. injection Hl as Hls.
           simpl. rewrite <- Hf, <- Hls.
           destruct s; reflexivity.
        -- simpl. destruct l; simpl; rewrite Hf; reflexivity.
    + exists (c :: l), ls, ls'. rewrite Hl, Hs. auto.
Qed.

Lemma splitlines_filter (s : str) :
  filter (A:=str) (@truthy char) (splitlines s)
  = filter (A:=str) (@truthy char) (split_at is_linebreak s).
Proof.
  destruct s as [|c s]; [reflexivity|].
  destruct (@splitlines_split_at (c :: s)) as (l & ls & ls' & -> & -> & Hf);
    [discriminate|].
  simpl. rewrite Hf. reflexivity.
Qed.

Lemma map_flat_map {A B C} (f : B -> C) (g : A -> list B) (l : list A) :
  map f (flat_map g l) = flat_map (fun x => map f (g x)) l.
Proof.
  induction l as [|a l IH]; simpl; [reflexivity|].
  rewrite map_app, IH. reflexivity.
Qed.

(** Lines that contribute no name can be left out before the pieces are
    collected. *)
Lemma filter_flat_map_lines (f : str -> list str) (ls : list str) :
  filter (A:=str) (@truthy char) (f []) = [] ->
  filter (A:=str) (@truthy char) (flat_map f ls)
  = filter (A:=str) (@truthy char) (flat_map f (filter (A:=str) (@truthy char) ls)).
Proof.
  intros Hnil. induction ls as [|l ls IH]; [reflexivity|].
  destruct l as [|c l]; cbn [flat_map filter truthy]; rewrite !filter_app, IH.
  - rewrite Hnil. reflexivity.
  - reflexivity.
Qed.

(** The parser computes what the specification describes. *)
Lemma parse_pasted_list_spec (txt : str) :
  parse_pasted_list txt = spec_parse txt.
Proof.
  unfold parse_pasted_list, spec_parse.
  destruct txt as [|c txt]; [reflexivity|].
  cbn [truthy negb]. rewrite map_flat_map.
  rewrite (flat_map_ext _ (fun x => map strip (split_at is_comma_or_semicolon x)))
    by (intros chunk; rewrite split_replace; reflexivity).
  rewrite filter_flat_map_lines by reflexivity.
  rewrite (filter_flat_map_lines _ (split_at is_linebreak (c :: txt)))
    by reflexivity.
  rewrite splitlines_filter. reflexivity.
Qed.

Lemma lstrip_app_nonspace (a b : str) (c : char) :
  is_space c = false -> lstrip (a ++ c :: b) = lstrip a ++ c :: b.
Proof.
  intros Hc. induction a as [|x a IH]; simpl.
  - rewrite Hc. reflexivity.
  - destruct (is_space x); [exact IH | reflexivity].
Qed.

Lemma lstrip_head (s : str) :
  lstrip s = [] \/ exists c r, lstrip s = c :: r /\ is_space c = false.
Proof.
  induction s as [|x s IH]; simpl; [left; reflexivity|].
  destruct (is_space x) eqn:Hx; [exact IH|].
  right. exists x, s. auto.
Qed.

Lemma lstrip_idem (s : str) : lstrip (lstrip s) = lstrip s.
Proof.
  destruct (lstrip_head s) as [->|(c & r & -> & Hc)]; simpl; [reflexivity|].
  rewrite Hc. reflexivity.
Qed.

Lemma lstrip_incl (s : str) : incl (lstrip s) s.
Proof.
  induction s as [|x s IH]; simpl; [apply incl_refl|].
  destruct (is_space x); [apply incl_tl; exact IH | apply incl_refl].
Qed.

Lemma lstrip_blank (s : str) : forallb is_space s = true -> lstrip s = [].
Proof.
  induction s as [|x s IH]; simpl; [reflexivity|].
  intros H. apply andb_prop in H. destruct H as [-> Hs]. exact (IH Hs).
Qed.

Lemma rstrip_cons_nonspace (c : char) (u : str) :
  is_space c = false -> rstrip (c :: u) = c :: rstrip u.
Proof.
  intros Hc. unfold rstrip. simpl rev at 2.
  rewrite lstrip_app_nonspace by exact Hc.
  rewrite rev_app_distr. reflexivity.
Qed.

Lemma rstrip_idem (s : str) : rstrip (rstrip s) = rstrip s.
Proof.
  unfold rstrip. rewrite rev_involutive, lstrip_idem. reflexivity.
Qed.

Lemma rstrip_incl (s : str) : incl (rstrip s) s.
Proof.
  unfold rstrip. intros x Hx. apply in_rev in Hx.
  apply lstrip_incl in Hx. apply in_rev in Hx. exact Hx.
Qed.

(** Trimming a trimmed string changes nothing. *)
Lemma strip_idem (s : str) : strip (strip s) = strip s.
Proof.
  unfold strip. destruct (lstrip_head s) as [->|(c & r & -> & Hc)].
  - reflexivity.
  - rewrite rstrip_cons_nonspace by exact Hc. simpl lstrip. rewrite Hc.
    rewrite rstrip_cons_nonspace by exact Hc. rewrite rstrip_idem. reflexivity.
Qed.

Lemma strip_incl (s : str) : incl (strip s) s.
Proof.
  unfold strip. eapply incl_tran; [apply rstrip_incl | apply lstrip_incl].
Qed.

Lemma strip_blank (s : str) : forallb is_space s = true -> strip s = [].
Proof.
  intros H. unfold strip. rewrite lstrip_blank by exact H. reflexivity.
Qed.

Lemma forallb_incl {A} (f : A -> bool) (a b : list A) :
  incl a b -> forallb f b = true -> forallb f a = true.
Proof.
  intros Hi Hb. apply forallb_forall. intros x Hx.
  rewrite forallb_forall in Hb. apply Hb, Hi, Hx.
Qed.

(** The pieces the specification's parser looks at, before trimming. *)
Lemma in_spec_pieces (txt q : str) :
  In q (flat_map (split_at is_comma_or_semicolon) (split_at is_linebreak txt)) ->
  forallb (fun c => negb (is_comma_or_semicolon c)) q = true
  /\ forallb (fun c => negb (is_linebreak c)) q = true
  /\ incl q txt.
Proof.
  intros Hq. apply in_flat_map in Hq. destruct Hq as (line & Hline & Hq).
  pose proof (split_at_pieces is_linebreak txt) as Hl.
  pose proof (split_at_pieces is_comma_or_semicolon line) as Hp.
  rewrite Forall_forall in Hl, Hp.
  destruct (Hl _ Hline) as [Hl1 Hl2]. destruct (Hp _ Hq) as [Hp1 Hp2].
  split; [exact Hp1|]. split.
  - exact (forallb_incl _ Hp2 Hl1).
  - eapply incl_tran; eassumption.
Qed.

Lemma spec_parse_clean (txt : str) : Forall clean (spec_parse txt).
Proof.
  apply Forall_forall. intros p Hp. unfold spec_parse in Hp.
  apply filter_In in Hp. destruct Hp as [Hp Ht].
  apply in_map_iff in Hp. destruct Hp as (q & <- & Hq).
  destruct (in_spec_pieces _ _ Hq) as (Hsep & Hlb & _).
  repeat split.
  - intros E. rewrite E in Ht. discriminate.
  - apply strip_idem.
  - exact (forallb_incl _ (@strip_incl q) Hsep).
  - exact (forallb_incl _ (@strip_incl q) Hlb).
Qed.

Lemma split_at_prefix (p : char -> bool) (ws s : str) :
  forallb (fun c => negb (p c)) ws = true ->
  split_at p (ws ++ s)
  = match split_at p s with
    | l :: ls => (ws ++ l) :: ls
    | [] => [ws]
    end.
Proof.
  intros H. induction ws as [|c ws IH]; cbn [app split_at].
  - destruct (split_at p s) eqn:E; [|reflexivity].
    exfalso. exact (split_at_nonempty p s E).
  - cbn [forallb] in H. apply andb_prop in H. destruct H as [Hc Hws].
    apply negb_true_iff in Hc. rewrite Hc, (IH Hws).
    destruct (split_at p s); reflexivity.
Qed.

(** Cutting a join on [comma :: ws] at the separators gives the names back,
    all but the first behind [ws]. *)
Lemma split_at_join (ws : str) (ps : list str) :
  forallb (fun c => negb (is_comma_or_semicolon c)) ws = true ->
  Forall (fun p => forallb (fun c => negb (is_comma_or_semicolon c)) p = true) ps ->
  split_at is_comma_or_semicolon (join (comma :: ws) ps)
  = match ps with
    | p :: rest => p :: map (app ws) rest
    | [] => [[]]
    end.
Proof.
  intros Hws H. induction H as [|p ps Hp Hps IH]; [reflexivity|].
  destruct ps as [|q ps].
  - cbn [join map]. apply split_at_none. exact Hp.
  - change (join (comma :: ws) (p :: q :: ps))
      with (p ++ comma :: (ws ++ join (comma :: ws) (q :: ps))).
    rewrite split_at_app by (exact Hp || reflexivity).
    rewrite split_at_prefix by exact Hws. rewrite IH. reflexivity.
Qed.

Lemma join_no_linebreak (sep : str) (ps : list str) :
  forallb (fun c => negb (is_linebreak c)) sep = true ->
  Forall (fun p => forallb (fun c => negb (is_linebreak c)) p = true) ps ->
  forallb (fun c => negb (is_linebreak c)) (join sep ps) = true.
Proof.
  intros Hsep H. induction H as [|p ps Hp Hps IH]; [reflexivity|].
  destruct ps as [|q ps]; [exact Hp|].
  change (join sep (p :: q :: ps)) with (p ++ sep ++ join sep (q :: ps)).
  rewrite !forallb_app, Hp, Hsep, IH. reflexivity.
Qed.

Lemma lstrip_app_spaces (ws s : str) :
  forallb is_space ws = true -> lstrip (ws ++ s) = lstrip s.
Proof.
  induction ws as [|c ws IH]; [reflexivity|]. cbn [forallb app lstrip].
  intros H. apply andb_prop in H. destruct H as [-> Hws]. exact (IH Hws).
Qed.

Lemma is_space_not_separator (c : char) :
  is_space c = true -> negb (is_comma_or_semicolon c) = true.
Proof.
  intros H. unfold is_comma_or_semicolon.
  destruct (N.eqb_spec c comma) as [->|_]; [discriminate H|].
  destruct (N.eqb_spec c semicolon) as [->|_]; [discriminate H|].
  reflexivity.
Qed.

(** Clean names survive a join on a comma, or on a comma followed by blanks
    that end no line, and parsing. *)
Lemma spec_parse_join (ws : str) (ps : list str) :
  forallb is_space ws = true ->
  forallb (fun c => negb (is_linebreak c)) ws = true ->
  Forall clean ps -> spec_parse (join (comma :: ws) ps) = ps.
Proof.
  intros Hws Hlb H. destruct ps as [|p ps]; [reflexivity|].
  unfold spec_parse.
  rewrite split_at_none.
  2:{ apply join_no_linebreak; [exact Hlb|].
      eapply Forall_impl; [|exact H]. intros a Ha. apply Ha. }
  cbn [flat_map]. rewrite app_nil_r, split_at_join.
  2:{ apply forallb_forall. intros c Hc. apply is_space_not_separator.
      rewrite forallb_forall in Hws. exact (Hws c Hc). }
  2:{ eapply Forall_impl; [|exact H]. intros a Ha. apply Ha. }
  inversion H as [|? ? Hp Hps]; subst.
  cbn [map filter]. destruct Hp as (Hne & Hs & _). rewrite Hs.
  destruct p; [congruence|]. cbn [truthy]. f_equal.
  clear - Hws Hps. induction Hps as [|a l Ha Hl IH]; [reflexivity|].
  cbn [map filter]. destruct Ha as (Hne & Hs & _).
  replace (strip (ws ++ a)) with a
    by (unfold strip in *; rewrite lstrip_app_spaces by exact Hws;
        symmetry; exact Hs).
  destruct a; [congruence|]. cbn [truthy]. rewrite IH. reflexivity.
Qed.

(** Text made of whitespace and separators only holds no name. *)
Lemma spec_parse_blank (txt : str) :
  forallb is_blank txt = true -> spec_parse txt = [].
Proof.
  intros Hb. unfold spec_parse.
  assert (H : Forall (fun q => strip q = [])
                (flat_map (split_at is_comma_or_semicolon)
                          (split_at is_linebreak txt))).
  { apply Forall_forall. intros q Hq.
    destruct (in_spec_pieces _ _ Hq) as (Hsep & _ & Hi).
    apply strip_blank. apply forallb_forall. intros c Hc.
    rewrite forallb_forall in Hb, Hsep.
    specialize (Hb c (Hi c Hc)). specialize (Hsep c Hc).
    unfold is_blank in Hb. apply negb_true_iff in Hsep.
    rewrite Hsep, orb_false_r in Hb. exact Hb. }
  induction H as [|q l Hq Hl IH]; [reflexivity|].
  cbn [map filter]. rewrite Hq. exact IH.
Qed.

Lemma split_at_ext (p q : char -> bool) (s : str) :
  (forall c, In c s -> p c = q c) -> split_at p s = split_at q s.
Proof.
  induction s as [|c s IH]; intros H; [reflexivity|].
  cbn [split_at]. rewrite (H c) by (left; reflexivity).
  rewrite IH by (intros d Hd; apply H; right; exact Hd). reflexivity.
Qed.

(** Where every line boundary of the text is a line feed, cutting at line
    feeds alone gives the same names. *)
Lemma parse_pasted_list_line_feeds (txt : str) :
  (forall c, In c txt -> is_linebreak c = true -> c = LF) ->
  parse_pasted_list txt
  = filter (A:=str) (@truthy char)
      (map strip (flat_map (split_at is_comma_or_semicolon)
                           (split_at (N.eqb LF) txt))).
Proof.
  intros H. rewrite parse_pasted_list_spec. unfold spec_parse.
  rewrite (split_at_ext is_linebreak (N.eqb LF)); [reflexivity|].
  intros c Hc. destruct (is_linebreak c) eqn:Hlb.
  - rewrite (H c Hc Hlb). reflexivity.
  - destruct (N.eqb_spec LF c) as [<-|_]; [discriminate Hlb | reflexivity].
Qed.

(** ** The serialised report is plain ASCII *)

Lemma is_ascii_app (a b : str) :
  is_ascii (a ++ b) = (is_ascii a && is_ascii b)%bool.
Proof. apply forallb_app. Qed.

Lemma is_ascii_flat_map (f : char -> str) (s : str) :
  (forall c, is_ascii (f c) = true) -> is_ascii (flat_map f s) = true.
Proof.
  intros Hf. induction s as [|c s IH]; [reflexivity|].
  cbn [flat_map]. rewrite is_ascii_app, Hf, IH. reflexivity.
Qed.

Lemma is_ascii_join (sep : str) (l : list str) :
  is_ascii sep = true -> Forall (fun s => is_ascii s = true) l ->
  is_ascii (join sep l) = true.
Proof.
  intros Hsep H. induction H as [|s l Hs Hl IH]; [reflexivity|].
  destruct l as [|t l]; [exact Hs|].
  change (join sep (s :: t :: l)) with (s ++ sep ++ join sep (t :: l)).
  rewrite !is_ascii_app, Hs, Hsep, IH. reflexivity.
Qed.

Lemma is_ascii_newline_indent (lvl : nat) : is_ascii (newline_indent lvl) = true.
Proof.
  unfold newline_indent. generalize (2 * lvl) as n.
  induction n as [|n IH]; [reflexivity|]. exact IH.
Qed.

Lemma hex_digit_ascii (n : N) : (hex_digit (n mod 16) <? 128)%N = true.
Proof.
  apply N.ltb_lt. unfold hex_digit.
  assert (n mod 16 < 16)%N by (apply N.mod_lt; discriminate).
  destruct (N.ltb_spec (n mod 16) 10); lia.
Qed.

Lemma u_escape_ascii (n : N) : is_ascii (u_escape n) = true.
Proof.
  unfold u_escape, is_ascii. cbn [forallb].
  rewrite !hex_digit_ascii. reflexivity.
Qed.

Lemma escape_char_ascii (c : char) : is_ascii (escape_char c) = true.
Proof.
  unfold escape_char.
  repeat match goal with
         | |- context [if (c =? ?k)%N then _ else _] =>
             destruct (c =? k)%N; [reflexivity|]
         end.
  destruct (in_range 32 126 c)%N eqn:Hr.
  - unfold in_range in Hr. apply andb_prop in Hr. destruct Hr as [_ Hr].
    apply N.leb_le in Hr. unfold is_ascii. cbn [forallb].
    replace (c <? 128)%N with true; [reflexivity|].
    symmetry. apply N.ltb_lt. lia.
  - destruct (c <? 65536)%N.
    + apply u_escape_ascii.
    + cbv zeta. rewrite is_ascii_app, !u_escape_ascii. reflexivity.
Qed.

Lemma json_string_ascii (s : str) : is_ascii (json_string s) = true.
Proof.
  unfold json_string. rewrite !is_ascii_app.
  rewrite (is_ascii_flat_map _ _ escape_char_ascii). reflexivity.
Qed.

Lemma string_of_uint_ascii (d : Decimal.uint) :
  is_ascii (of_ascii (NilEmpty.string_of_uint d)) = true.
Proof. induction d; [reflexivity | exact IHd ..]. Qed.

Lemma repr_int_ascii (z : Z) : is_ascii (repr_int z) = true.
Proof.
  unfold repr_int.
  assert (H : forall d, is_ascii (of_ascii (NilZero.string_of_uint d)) = true).
  { intros d. destruct d; try reflexivity; apply (string_of_uint_ascii (_ d)). }
  destruct (Z.to_int z) as [d|d]; cbn [NilZero.string_of_int]; [apply H|].
  exact (H d).
Qed.

Lemma dumps_ascii (j : json) : forall lvl, is_ascii (dumps lvl j) = true.
Proof.
  induction j as [ | z | s | l IH | kv IH] using json_induction; intros lvl.
  - reflexivity.
  - apply repr_int_ascii.
  - apply json_string_ascii.
  - destruct l as [|x l]; [reflexivity|].
    cbn [dumps]. rewrite !is_ascii_app, !is_ascii_newline_indent.
    rewrite is_ascii_join;
      [reflexivity | exact (is_ascii_newline_indent (S lvl)) |].
    apply Forall_map. eapply Forall_impl; [|exact IH]. intros a Ha. apply Ha.
  - destruct kv as [|x kv]; [reflexivity|].
    cbn [dumps]. rewrite !is_ascii_app, !is_ascii_newline_indent.
    rewrite is_ascii_join;
      [reflexivity | exact (is_ascii_newline_indent (S lvl)) |].
    apply Forall_map. eapply Forall_impl; [|exact IH]. intros [k v] Hv.
    cbn [snd] in Hv.
    rewrite !is_ascii_app, json_string_ascii, (Hv (S lvl)). reflexivity.
Qed.

Lemma encode_from_ascii (s : str) :
  is_ascii s = true -> forall pos, encode_from pos s = inr s.
Proof.
  induction s as [|c s IH]; intros H pos; [reflexivity|].
  cbn [is_ascii forallb] in H. apply andb_prop in H. destruct H as [Hc Hs].
  cbn [encode_from]. unfold encode_char. rewrite Hc, (IH Hs). reflexivity.
Qed.

(** Encoding the serialised report never fails. *)
Lemma encode_json_dumps (j : json) :
  encode_utf8 (json_dumps j) = inr (json_dumps j).
Proof. apply encode_from_ascii, dumps_ascii. Qed.

(** ** Running the effectful parts *)

Lemma bind_ret {A B} (m : M A) (k : A -> M B) (tr tr' : trace) (a : A) :
  m tr = (Ret a, tr') -> bind m k tr = k a tr'.
Proof. intros H. unfold bind. rewrite H. reflexivity. Qed.

Arguments bind_ret {A B} m k {tr tr' a} _.

Lemma bind_emit {B} (ev : event) (k : unit -> M B) (tr : trace) :
  bind (emit ev) k tr = k tt (tr ++ [ev]).
Proof. reflexivity. Qed.

Lemma bind_pure {A B} (a : A) (k : A -> M B) (tr : trace) :
  bind (ret a) k tr = k a tr.
Proof. reflexivity. Qed.

Lemma bind_halt {A B} (m : M A) (k : A -> M B) (tr tr' : trace) :
  m tr = (Halt, tr') -> bind m k tr = (Halt, tr').
Proof. intros H. unfold bind. rewrite H. reflexivity. Qed.

(** The snippet fetcher returns, whatever the search service does; it calls
    the service at most once, and only with both credentials and a name. *)
Lemma google_news_snippets_run (e : env) (query : str) (num : nat) (tr : trace) :
  exists found,
    google_news_snippets e query num tr
    = (Ret found,
       tr ++ (if searchable e query
              then [EvSearch (search_request_for e query num)] else []))
    /\ (searchable e query = false -> found = []).
Proof.
  unfold google_news_snippets, searchable.
  destruct (truthy (GOOGLE_CSE_ID e) && truthy (GOOGLE_API_KEY e))%bool;
    destruct (truthy query); cbn [negb orb andb].
  - unfold try_except, bind, call_search.
    fold (search_request_for e query num).
    destruct (search_service e tr (search_request_for e query num));
      eexists; (split; [reflexivity | discriminate]).
  - exists []. rewrite app_nil_r. split; reflexivity.
  - exists []. rewrite app_nil_r. split; reflexivity.
  - exists []. rewrite app_nil_r. split; reflexivity.
Qed.

Lemma dict_set_empty_values (k : str) (d : snippet_map) :
  Forall (fun kv => snd kv = []) d ->
  Forall (fun kv => snd kv = []) (dict_set k [] d).
Proof.
  induction 1 as [|[k' v'] d Hk Hd IH]; cbn [dict_set].
  - constructor; [reflexivity | constructor].
  - destruct (str_eqb k' k); constructor; auto.
Qed.

Lemma str_eqb_eq (a b : str) : str_eqb a b = true -> a = b.
Proof.
  revert b. induction a as [|x a IH]; intros [|y b] H; try discriminate.
  - reflexivity.
  - cbn [str_eqb] in H. apply andb_prop in H. destruct H as [Hx Ha].
    apply N.eqb_eq in Hx. rewrite Hx, (IH _ Ha). reflexivity.
Qed.

Lemma dict_set_keys (k n : str) (v : list news_snippet) (d : snippet_map) :
  n = k \/ In n (map fst d) -> In n (map fst (dict_set k v d)).
Proof.
  induction d as [|[k' v'] d IH]; cbn [dict_set map fst In].
  - intros [->|[]]. left. reflexivity.
  - destruct (str_eqb k' k) eqn:Hk; cbn [map fst In].
    + apply str_eqb_eq in Hk. intros [->|[H|H]]; auto.
    + intros [H|[H|H]]; auto.
Qed.

(** The news loop runs to its end and leaves exactly [fetch_events]; every
    name it went over has an entry in the map. *)
Lemma fetch_news_run (e : env) (total : nat) (names : list str) :
  forall (i : nat) (d : snippet_map) (tr : trace),
  exists d',
    fetch_news e total i names d tr = (Ret d', tr ++ fetch_events e total i names)
    /\ ((forall n, In n names -> searchable e n = false) ->
        Forall (fun kv => snd kv = []) d -> Forall (fun kv => snd kv = []) d')
    /\ (forall n, In n names \/ In n (map fst d) -> In n (map fst d')).
Proof.
  induction names as [|name rest IH]; intros i d tr.
  - exists d. cbn [fetch_news fetch_events]. rewrite app_nil_r.
    split; [reflexivity|]. split; [auto|]. intros n [[]|H]. exact H.
  - destruct (google_news_snippets_run e name 2 tr) as (found & Hrun & Hfound).
    cbn [fetch_news fetch_events].
    rewrite (bind_ret _ _ Hrun).
    rewrite bind_emit.
    destruct (IH (S i) (dict_set name found d)
                 ((tr ++ (if searchable e name
                          then [EvSearch (search_request_for e name 2)] else []))
                  ++ [EvProgress i total (of_ascii "News: " ++ name)]))
      as (d' & Hd' & Hempty & Hkeys).
    exists d'. split; [|split].
    + rewrite Hd'. f_equal. rewrite <- !app_assoc. reflexivity.
    + intros Hns Hd. apply Hempty.
      * intros n Hn. apply Hns. right. exact Hn.
      * rewrite Hfound by (apply Hns; left; reflexivity).
        apply dict_set_empty_values. exact Hd.
    + intros n Hn. apply Hkeys.
      destruct Hn as [[<-|Hn]|Hn]; [right | left; exact Hn | right];
        apply dict_set_keys; auto.
Qed.

Lemma pull_news_run (e : env) (i : inputs) (S B T F : list str) (tr : trace) :
  exists snippets,
    pull_news e i S B T F tr
    = (Ret snippets, tr ++ news_events e i (names_for_news S B T F))
    /\ (use_google i = false -> snippets = [])
    /\ ((truthy (GOOGLE_CSE_ID e) && truthy (GOOGLE_API_KEY e))%bool = false ->
        Forall (fun kv => snd kv = []) snippets)
    /\ (use_google i = true ->
        forall n, In n (names_for_news S B T F) -> In n (map fst snippets)).
Proof.
  unfold pull_news, news_events. destruct (use_google i).
  - set (names := names_for_news S B T F).
    set (start := EvProgressStart (of_ascii "Pulling news" ++ [8230%N])).
    destruct (fetch_news_run e (length names) names 1 [] (tr ++ [start]))
      as (d' & Hd' & Hempty & Hkeys).
    exists d'. split; [|split; [|split]].
    + rewrite bind_emit, (bind_ret _ _ Hd'), bind_emit.
      unfold ret. f_equal. rewrite <- !app_assoc. reflexivity.
    + discriminate.
    + intros Hcred. apply Hempty; [|constructor].
      intros n _. unfold searchable. rewrite Hcred. reflexivity.
    + intros _ n Hn. apply Hkeys. left. exact Hn.
  - exists []. rewrite app_nil_r. split; [reflexivity|].
    split; [reflexivity|]. split; [constructor | discriminate].
Qed.

(** The completion client returns, whatever the endpoint does. *)
Lemma openai_complete_run (e : env) (sp up : str) (t : Q) (tr : trace) :
  openai_complete e sp up t tr
  = (Ret (completion_value e sp up t tr),
     tr ++ (if truthy (OPENAI_API_KEY e)
            then [EvCompletion (completion_request_for e sp up t)] else [])).
Proof.
  unfold openai_complete, completion_value.
  destruct (truthy (OPENAI_API_KEY e)); cbn [negb].
  - unfold try_except, bind, call_completion.
    fold (completion_request_for e sp up t).
    destruct (completion_service e tr (completion_request_for e sp up t))
      as [ex|resp]; [reflexivity|].
    destruct (choices resp); reflexivity.
  - unfold ret. rewrite app_nil_r. reflexivity.
Qed.

Lemma analysis_text_run (e : env) (i : inputs) (prompt : str) (tr : trace) :
  exists analysis,
    analysis_text e i prompt tr = (Ret analysis, tr ++ ai_events e i prompt)
    /\ (use_ai i = false -> analysis = Some manual_template)
    /\ (use_ai i = true ->
        analysis = completion_value e system_prompt prompt default_temperature
                     (tr ++ [EvStatus (of_ascii "Thinking (AI)" ++ [8230%N])])).
Proof.
  unfold analysis_text, ai_events. destruct (use_ai i).
  - eexists. split; [|split; [discriminate | reflexivity]].
    rewrite bind_emit, openai_complete_run. f_equal. rewrite <- app_assoc. reflexivity.
  - exists (Some manual_template). rewrite app_nil_r.
    split; [reflexivity | split; [reflexivity | discriminate]].
Qed.

Lemma download_button_run (export : json) (tr : trace) :
  download_button export tr = (Ret tt, tr ++ [download_event export]).
Proof.
  unfold download_button. rewrite encode_json_dumps.
  rewrite bind_pure. reflexivity.
Qed.

Lemma bind_time_now {B} (e : env) (k : Z -> M B) (tr : trace) :
  bind (time_now e) k tr = k (clock e tr) tr.
Proof. reflexivity. Qed.

Lemma require_starters_ok (starters : list str) (tr : trace) :
  starters <> [] -> require_starters starters tr = (Ret tt, tr).
Proof. destruct starters; [congruence | reflexivity]. Qed.

(** Without starters the run shows the error and stops there. *)
Lemma analyze_halts (e : env) (i : inputs) (tr : trace) :
  parse_pasted_list (starters_txt i) = [] ->
  analyze e i tr = (Halt, tr ++ [error_event]).
Proof.
  intros H. unfold analyze. cbv zeta. rewrite H.
  apply bind_halt. reflexivity.
Qed.

(** With starters the run completes: the news events, the events of the
    analysis, then the results and the download button. *)
Lemma analyze_run (e : env) (i : inputs) (tr : trace) :
  parse_pasted_list (starters_txt i) <> [] ->
  exists snippets analysis,
    let starters := parse_pasted_list (starters_txt i) in
    let bench := parse_pasted_list (bench_txt i) in
    let free_agents := parse_pasted_list (fa_txt i) in
    let trade_targets := parse_pasted_list (trade_targets_txt i) in
    let names := names_for_news starters bench trade_targets free_agents in
    let payload :=
      user_payload i starters bench free_agents trade_targets snippets in
    let prompt := user_prompt payload in
    let tr1 := tr ++ news_events e i names in
    let tr2 := tr1 ++ ai_events e i prompt in
    let export :=
      export_json (clock e (tr2 ++ results_events analysis)) i payload analysis in
    analyze e i tr
    = (Ret {| rep_snippets := snippets;
              rep_user_prompt := prompt;
              rep_analysis := analysis;
              rep_export := export |},
       tr2 ++ results_events analysis ++ [download_event export])
    /\ (use_google i = false -> snippets = [])
    /\ ((truthy (GOOGLE_CSE_ID e) && truthy (GOOGLE_API_KEY e))%bool = false ->
        Forall (fun kv => snd kv = []) snippets)
    /\ (use_google i = true -> forall n, In n names -> In n (map fst snippets))
    /\ (use_ai i = false -> analysis = Some manual_template)
    /\ (use_ai i = true ->
        analysis = completion_value e system_prompt prompt default_temperature
                     (tr1 ++ [EvStatus (of_ascii "Thinking (AI)" ++ [8230%N])])).
Proof.
  intros Hs.
  destruct (pull_news_run e i (parse_pasted_list (starters_txt i))
              (parse_pasted_list (bench_txt i))
              (parse_pasted_list (trade_targets_txt i))
              (parse_pasted_list (fa_txt i)) tr)
    as (snippets & Hp & Hoff & Hcred & Hkeys).
  destruct (analysis_text_run e i
              (user_prompt
                 (user_payload i (parse_pasted_list (starters_txt i))
                    (parse_pasted_list (bench_txt i))
                    (parse_pasted_list (fa_txt i))
                    (parse_pasted_list (trade_targets_txt i)) snippets))
              (tr ++ news_events e i
                       (names_for_news (parse_pasted_list (starters_txt i))
                          (parse_pasted_list (bench_txt i))
                          (parse_pasted_list (trade_targets_txt i))
                          (parse_pasted_list (fa_txt i)))))
    as (analysis & Ha & Hmanual & Hai).
  exists snippets, analysis. cbv zeta.
  split; [|repeat split; assumption].
  unfold analyze. cbv zeta.
  rewrite (bind_ret _ _ (require_starters_ok tr Hs)).
  rewrite (bind_ret _ _ Hp), (bind_ret _ _ Ha), !bind_emit, bind_time_now.
  rewrite (bind_ret _ _ (download_button_run _ _)).
  unfold ret, results_events. rewrite <- !app_assoc. reflexivity.
Qed.

(** ** Reading a trace *)

Lemma search_queries_app (a b : trace) :
  search_queries (a ++ b) = search_queries a ++ search_queries b.
Proof.
  induction a as [|ev a IH]; [reflexivity|].
  destruct ev; cbn [app search_queries]; rewrite IH; reflexivity.
Qed.

Lemma search_queries_fetch_events (e : env) (total : nat) (names : list str) :
  forall i,
    search_queries (fetch_events e total i names)
    = map news_query (filter (searchable e) names).
Proof.
  induction names as [|n names IH]; intros i; [reflexivity|].
  cbn [fetch_events filter]. rewrite search_queries_app.
  destruct (searchable e n); cbn [search_queries app map]; rewrite IH; reflexivity.
Qed.

Lemma progress_fetch_events (e : env) (total : nat) (names : list str) :
  forall i, length (filter is_progress (fetch_events e total i names))
            = length names.
Proof.
  induction names as [|n names IH]; intros i; [reflexivity|].
  cbn [fetch_events]. rewrite filter_app, length_app.
  destruct (searchable e n); cbn [filter is_progress length Nat.add];
    rewrite IH; reflexivity.
Qed.

Lemma search_queries_ai_events (e : env) (i : inputs) (prompt : str) :
  search_queries (ai_events e i prompt) = [].
Proof.
  unfold ai_events. destruct (use_ai i); [|reflexivity].
  destruct (truthy (OPENAI_API_KEY e)); reflexivity.
Qed.

Lemma progress_ai_events (e : env) (i : inputs) (prompt : str) :
  filter is_progress (ai_events e i prompt) = [].
Proof.
  unfold ai_events. destruct (use_ai i); [|reflexivity].
  destruct (truthy (OPENAI_API_KEY e)); reflexivity.
Qed.

Lemma search_queries_news_events (e : env) (i : inputs) (names : list str) :
  search_queries (news_events e i names)
  = if use_google i then map news_query (filter (searchable e) names) else [].
Proof.
  unfold news_events. destruct (use_google i); [|reflexivity].
  cbn [search_queries]. rewrite search_queries_app, search_queries_fetch_events.
  apply app_nil_r.
Qed.

Lemma progress_news_events (e : env) (i : inputs) (names : list str) :
  length (filter is_progress (news_events e i names))
  = if use_google i then length names else 0.
Proof.
  unfold news_events. destruct (use_google i); [|reflexivity].
  cbn [filter is_progress]. rewrite filter_app, length_app, progress_fetch_events.
  cbn [filter is_progress length]. apply Nat.add_0_r.
Qed.

(** ** The names eligible for news *)

Lemma keep_named_below_firstn (names : list str) :
  forall i, keep_named_below i names
            = filter (A:=str) (@truthy char) (firstn (25 - i) names).
Proof.
  induction names as [|n names IH]; intros i.
  - rewrite firstn_nil. reflexivity.
  - cbn [keep_named_below]. rewrite IH.
    destruct (Nat.ltb_spec i 25) as [Hlt|Hge].
    + replace (25 - i) with (S (25 - S i)) by lia.
      cbn [firstn filter]. destruct (truthy n); reflexivity.
    + replace (25 - i) with 0 by lia. replace (25 - S i) with 0 by lia.
      rewrite andb_false_r. reflexivity.
Qed.

Lemma names_for_news_firstn (S B T F : list str) :
  names_for_news S B T F
  = filter (A:=str) (@truthy char) (firstn 25 (S ++ B ++ T ++ firstn 10 F)).
Proof. unfold names_for_news. apply keep_named_below_firstn. Qed.

Lemma names_for_news_length (S B T F : list str) :
  length (names_for_news S B T F) <= 25.
Proof.
  rewrite names_for_news_firstn.
  eapply Nat.le_trans; [apply filter_length_le | apply firstn_le_length].
Qed.

Lemma names_for_news_truthy (S B T F : list str) :
  Forall (fun n => truthy n = true) (names_for_news S B T F).
Proof.
  rewrite names_for_news_firstn. apply Forall_forall. intros n Hn.
  apply filter_In in Hn. apply Hn.
Qed.

Lemma filter_all {A} (f : A -> bool) (l : list A) :
  Forall (fun x => f x = true) l -> filter f l = l.
Proof.
  induction 1 as [|x l Hx Hl IH]; [reflexivity|].
  cbn [filter]. rewrite Hx, IH. reflexivity.
Qed.

Lemma filter_none {A} (f : A -> bool) (l : list A) :
  Forall (fun x => f x = false) l -> filter f l = [].
Proof.
  induction 1 as [|x l Hx Hl IH]; [reflexivity|].
  cbn [filter]. rewrite Hx, IH. reflexivity.
Qed.

Lemma Forall_firstn {A} (P : A -> Prop) (n : nat) (l : list A) :
  Forall P l -> Forall P (firstn n l).
Proof.
  intros H. revert n. induction H as [|x l Hx Hl IH]; intros [|n]; cbn [firstn];
    constructor; auto.
Qed.

Lemma parse_pasted_list_truthy (txt : str) :
  Forall (fun n => truthy n = true) (parse_pasted_list txt).
Proof.
  unfold parse_pasted_list. destruct (negb (truthy txt)); [constructor|].
  apply Forall_forall. intros n Hn. apply filter_In in Hn. apply Hn.
Qed.

Lemma filter_searchable (e : env) (names : list str) :
  Forall (fun n => truthy n = true) names ->
  filter (searchable e) names
  = if (truthy (GOOGLE_CSE_ID e) && truthy (GOOGLE_API_KEY e))%bool
    then names else [].
Proof.
  intros H. unfold searchable.
  destruct (truthy (GOOGLE_CSE_ID e) && truthy (GOOGLE_API_KEY e))%bool.
  - apply filter_all. eapply Forall_impl; [|exact H].
    intros n Hn. rewrite Hn. reflexivity.
  - apply filter_none. apply Forall_forall. reflexivity.
Qed.

Lemma truthy_cases {A} (l : list A) :
  (l = [] /\ truthy l = false) \/ (l <> [] /\ truthy l = true).
Proof. destruct l; [left | right]; split; (reflexivity || discriminate). Qed.

(** The search calls of a run are those for the eligible names, one each and
    in order, when the toggle is on and both credentials are there. *)
Lemma analyze_search_queries (e : env) (i : inputs) (tr : trace) :
  search_queries (snd (analyze e i tr))
  = search_queries tr ++ map news_query (searched e i).
Proof.
  unfold searched.
  destruct (truthy_cases (parse_pasted_list (starters_txt i))) as [[HS ->]|[Hne ->]].
  - rewrite (analyze_halts e i tr HS). cbn [snd andb map].
    rewrite search_queries_app. reflexivity.
  - destruct (analyze_run e i tr Hne) as (snippets & analysis & Hrun & _).
    cbv zeta in Hrun. rewrite Hrun. cbn [snd andb].
    rewrite !search_queries_app, search_queries_news_events,
      search_queries_ai_events.
    rewrite filter_searchable by apply names_for_news_truthy.
    cbn [search_queries results_events download_event app].
    rewrite <- !app_assoc. f_equal.
    destruct (use_google i);
      destruct (truthy (GOOGLE_CSE_ID e) && truthy (GOOGLE_API_KEY e))%bool;
      cbn [app andb map]; rewrite ?app_nil_r; reflexivity.
Qed.

(** The passes through the news loop, each of which invokes the snippet
    fetcher once. *)
Lemma analyze_progress (e : env) (i : inputs) :
  length (filter is_progress (snd (run e i))) <= 25.
Proof.
  unfold run.
  destruct (truthy_cases (parse_pasted_list (starters_txt i))) as [[HS _]|[Hne _]].
  - rewrite (analyze_halts e i [] HS). cbn. lia.
  - destruct (analyze_run e i [] Hne) as (snippets & analysis & Hrun & _).
    cbv zeta in Hrun. rewrite Hrun. cbn [snd app].
    rewrite !filter_app, !length_app, progress_news_events, progress_ai_events.
    cbn [length filter is_progress results_events download_event app Nat.add].
    destruct (use_google i); [|lia].
    pose proof (names_for_news_length (parse_pasted_list (starters_txt i))
                  (parse_pasted_list (bench_txt i))
                  (parse_pasted_list (trade_targets_txt i))
                  (parse_pasted_list (fa_txt i))).
    lia.
Qed.

Lemma searched_length (e : env) (i : inputs) : length (searched e i) <= 25.
Proof.
  unfold searched.
  destruct (_ && _ && _)%bool; [apply names_for_news_length | cbn; lia].
Qed.

Lemma nodup_length_le {A} (dec : forall x y : A, {x = y} + {x <> y}) (l : list A) :
  length (nodup dec l) <= length l.
Proof.
  apply NoDup_incl_length; [apply NoDup_nodup|].
  intros x Hx. apply nodup_In in Hx. exact Hx.
Qed.

(** A run never ends in an exception: it stops for want of starters or it
    completes. *)
Lemma run_never_raises (e : env) (i : inputs) :
  fst (run e i) = Halt \/ exists r, fst (run e i) = Ret r.
Proof.
  unfold run.
  destruct (truthy_cases (parse_pasted_list (starters_txt i))) as [[HS _]|[Hne _]].
  - left. rewrite (analyze_halts e i [] HS). reflexivity.
  - right. destruct (analyze_run e i [] Hne) as (snippets & analysis & Hrun & _).
    cbv zeta in Hrun. rewrite Hrun. eexists. reflexivity.
Qed.

(** Thirty starters with search on: 25 search calls. Five starters and
    fifteen free agents: 15 calls, for the starters and ten free agents. *)
Example thirty_names_25_calls :
  length (parse_pasted_list (numbered_names 30)) = 30
  /\ length (search_queries (snd (run keyed (form false true (numbered_names 30)))))
     = 25.
Proof. split; vm_compute; reflexivity. Qed.

Example fifteen_free_agents_10_calls :
  length (search_queries
            (snd (run keyed
                    {| use_ai := false; use_google := true; scoring := PPR;
                       risk_tolerance := 5; week := 1; sleeper_league_id := [];
                       starters_txt := numbered_names 5; bench_txt := [];
                       fa_txt := numbered_names 15; trade_targets_txt := [];
                       notes := [] |})))
  = 15.
Proof. vm_compute. reflexivity. Qed.

(** In a run, the analysis text without a completion credential: the
    disabled-feature placeholder when the AI toggle is on, the manual
    template when it is off. *)
Lemma analysis_without_credential (e : env) (i : inputs) :
  OPENAI_API_KEY e = [] ->
  parse_pasted_list (starters_txt i) <> [] ->
  exists r tr,
    run e i = (Ret r, tr)
    /\ rep_analysis r
       = Some (if use_ai i then ai_disabled_placeholder else manual_template).
Proof.
  intros Hkey Hne.
  destruct (analyze_run e i [] Hne)
    as (snippets & analysis & Hrun & _ & _ & _ & Hmanual & Hai).
  cbv zeta in Hrun, Hai. unfold run. rewrite Hrun.
  eexists; eexists. split; [reflexivity|]. cbn [rep_analysis].
  destruct (use_ai i).
  - rewrite Hai by reflexivity. unfold completion_value. rewrite Hkey.
    reflexivity.
  - apply Hmanual. reflexivity.
Qed.

(** * The claims *)

(** ** The list parser *)

(** C1. For every input string, [parse_pasted_list] returns the ordered
    sequence obtained by splitting the input on newlines, then splitting each
    line on commas and semicolons, trimming whitespace from each piece, and
    dropping the empty pieces. The empty input, and any input made of
    whitespace and separators only, yields the empty sequence. The parser is
    a total function: it has a value on every input. *)
Theorem C1_parse_pasted_list_meets_spec (txt : str) :
  parse_pasted_list txt = spec_parse txt
  /\ parse_pasted_list [] = []
  /\ (forallb is_blank txt = true -> parse_pasted_list txt = []).
Proof.
  split; [apply parse_pasted_list_spec|]. split; [reflexivity|].
  intros H. rewrite parse_pasted_list_spec. apply spec_parse_blank. exact H.
Qed.

Lemma C1_witness :
  forallb is_blank (of_ascii " ,; ,") = true
  /\ parse_pasted_list (of_ascii " ,; ,") = spec_parse (of_ascii " ,; ,")
  /\ parse_pasted_list (of_ascii " ,; ,") = [].
Proof.
  destruct (C1_parse_pasted_list_meets_spec (of_ascii " ,; ,")) as (H1 & _ & H2).
  split; [reflexivity|]. split; [exact H1 | apply H2; reflexivity].
Defined.

(** C2. For every input string, [parse_pasted_list] has a value (it is total
    and raises nothing) and no element of the returned list is the empty
    string. *)
Theorem C2_parse_pasted_list_no_empty_string (txt : str) :
  exists names,
    parse_pasted_list txt = names
    /\ ~ In [] names
    /\ Forall (fun n => n <> []) names.
Proof.
  exists (parse_pasted_list txt). split; [reflexivity|].
  pose proof (parse_pasted_list_truthy txt) as H.
  split.
  - intros Hin. rewrite Forall_forall in H. specialize (H _ Hin). discriminate.
  - eapply Forall_impl; [|exact H]. intros n Hn E. rewrite E in Hn. discriminate.
Qed.

(** C3. Parsing is idempotent with respect to re-joining: for every input
    string [txt], parsing the comma-join of [parse_pasted_list txt] yields
    exactly [parse_pasted_list txt] again, whether the names are joined with
    [","] or with [", "]. *)
Theorem C3_parse_join_idempotent (txt : str) :
  parse_pasted_list (join (of_ascii ",") (parse_pasted_list txt))
  = parse_pasted_list txt
  /\ parse_pasted_list (join (of_ascii ", ") (parse_pasted_list txt))
     = parse_pasted_list txt.
Proof.
  split; rewrite (parse_pasted_list_spec (join _ _));
    apply spec_parse_join;
    try reflexivity; rewrite parse_pasted_list_spec; apply spec_parse_clean.
Qed.

(** ** The analysis flow *)

(** C4. If the parsed starters list is empty, the analysis flow halts in a
    user-visible error state before any external call: the run consists of
    the error message alone, so no search call and no completion call is made
    and no analysis text or export is produced. *)
Theorem C4_no_starters_halts (e : env) (i : inputs) :
  parse_pasted_list (starters_txt i) = [] ->
  run e i = (Halt, [error_event])
  /\ search_queries (snd (run e i)) = []
  /\ existsb is_search (snd (run e i)) = false
  /\ existsb is_completion (snd (run e i)) = false
  /\ existsb is_output (snd (run e i)) = false.
Proof.
  intros H. unfold run. rewrite (analyze_halts e i [] H).
  split; [reflexivity|]. split; [reflexivity|]. split; [reflexivity|].
  split; reflexivity.
Qed.

Lemma C4_witness :
  parse_pasted_list (starters_txt (form true true (of_ascii " ,; "))) = []
  /\ run keyed (form true true (of_ascii " ,; ")) = (Halt, [error_event]).
Proof.
  split; [reflexivity|].
  apply (C4_no_starters_halts keyed (form true true (of_ascii " ,; "))).
  reflexivity.
Defined.

(** C5, as claimed, fails: without search credentials and with the search
    toggle switched on, the snippet map of the run is not the empty map; it
    maps each name to an empty list. *)
Lemma C5_counterexample :
  GOOGLE_CSE_ID offline = [] /\ GOOGLE_API_KEY offline = []
  /\ final_snippets (run offline (form false true (of_ascii "QB Bo, RB Al")))
     = Some [(of_ascii "QB Bo", []); (of_ascii "RB Al", [])]
  /\ final_snippets (run offline (form false true (of_ascii "QB Bo, RB Al")))
     <> Some [].
Proof.
  split; [reflexivity|]. split; [reflexivity|].
  split; [vm_compute; reflexivity | vm_compute; discriminate].
Qed.

(** C5, amended. If a search credential is absent then, for every
    combination of user inputs and toggle settings, no search network call is
    attempted and the snippet map holds no snippet: every name in it is
    mapped to the empty list. The map is the empty map when the search toggle
    is off; when it is on, every name eligible for news has an entry. *)
Theorem C5_absent_credentials_no_search (e : env) (i : inputs) :
  GOOGLE_CSE_ID e = [] \/ GOOGLE_API_KEY e = [] ->
  search_queries (snd (run e i)) = []
  /\ existsb is_search (snd (run e i)) = false
  /\ forall snippets,
       final_snippets (run e i) = Some snippets ->
       Forall (fun kv => snd kv = []) snippets
       /\ (use_google i = false -> snippets = [])
       /\ (use_google i = true ->
           forall n,
             In n (names_for_news (parse_pasted_list (starters_txt i))
                     (parse_pasted_list (bench_txt i))
                     (parse_pasted_list (trade_targets_txt i))
                     (parse_pasted_list (fa_txt i))) ->
             In n (map fst snippets)).
Proof.
  intros Habsent.
  assert (Hcred : (truthy (GOOGLE_CSE_ID e) && truthy (GOOGLE_API_KEY e))%bool
                  = false).
  { destruct Habsent as [-> | ->]; [reflexivity | apply andb_false_r]. }
  assert (Hq : search_queries (snd (run e i)) = []).
  { unfold run. rewrite analyze_search_queries. unfold searched.
    rewrite Hcred, andb_false_r. reflexivity. }
  split; [exact Hq|]. split.
  - revert Hq. generalize (snd (run e i)) as tr.
    induction tr as [|ev tr IH]; [reflexivity|].
    destruct ev; cbn [search_queries existsb is_search orb];
      (discriminate || exact IH).
  - intros snippets Hfinal. unfold final_snippets, run in Hfinal.
    destruct (truthy_cases (parse_pasted_list (starters_txt i)))
      as [[HS _]|[Hne _]].
    + rewrite (analyze_halts e i [] HS) in Hfinal. discriminate.
    + destruct (analyze_run e i [] Hne)
        as (snippets' & analysis & Hrun & Hoff & Hempty & Hkeys & _).
      cbv zeta in Hrun, Hkeys. rewrite Hrun in Hfinal.
      cbn [fst rep_snippets] in Hfinal. injection Hfinal as <-.
      split; [exact (Hempty Hcred)|]. split; assumption.
Qed.

Lemma C5_witness :
  (GOOGLE_CSE_ID offline = [] \/ GOOGLE_API_KEY offline = [])
  /\ search_queries (snd (run offline (form true true (of_ascii "QB Bo, RB Al"))))
     = [].
Proof.
  split; [left; reflexivity|].
  apply (C5_absent_credentials_no_search offline
           (form true true (of_ascii "QB Bo, RB Al"))).
  left. reflexivity.
Defined.

(** C6. The completion client never raises. Without a completion credential
    it returns the fixed disabled-feature placeholder and calls nothing; when
    the endpoint call fails it returns the placeholder that embeds the error,
    also when the response holds no choice. *)
Theorem C6_openai_complete_never_raises
    (e : env) (sp up : str) (t : Q) (tr : trace) :
  (exists text tr', openai_complete e sp up t tr = (Ret text, tr'))
  /\ (OPENAI_API_KEY e = [] ->
      openai_complete e sp up t tr = (Ret (Some ai_disabled_placeholder), tr))
  /\ (forall ex,
        OPENAI_API_KEY e <> [] ->
        completion_service e tr (completion_request_for e sp up t) = inl ex ->
        fst (openai_complete e sp up t tr) = Ret (Some (ai_error_placeholder ex)))
  /\ (OPENAI_API_KEY e <> [] ->
      completion_service e tr (completion_request_for e sp up t)
      = inr {| choices := [] |} ->
      fst (openai_complete e sp up t tr)
      = Ret (Some (ai_error_placeholder IndexError))).
Proof.
  rewrite openai_complete_run. unfold completion_value.
  split; [eexists; eexists; reflexivity|]. split; [|split].
  - intros ->. cbn [truthy]. rewrite app_nil_r. reflexivity.
  - intros ex Hkey Hfail. rewrite Hfail.
    destruct (OPENAI_API_KEY e); [congruence | reflexivity].
  - intros Hkey Hresp. rewrite Hresp.
    destruct (OPENAI_API_KEY e); [congruence | reflexivity].
Qed.

Lemma C6_witness :
  OPENAI_API_KEY offline = []
  /\ openai_complete offline system_prompt [] default_temperature []
     = (Ret (Some ai_disabled_placeholder), [])
  /\ OPENAI_API_KEY keyed <> []
  /\ fst (openai_complete keyed system_prompt [] default_temperature [])
     = Ret (Some (ai_error_placeholder unreachable)).
Proof.
  split; [reflexivity|]. split.
  - apply (C6_openai_complete_never_raises offline system_prompt []
             default_temperature []). reflexivity.
  - split; [discriminate|].
    apply (C6_openai_complete_never_raises keyed system_prompt []
             default_temperature []); [discriminate | reflexivity].
Defined.

(** C7. A run issues at most 25 search calls, for at most 25 distinct names,
    whatever the lengths of the roster lists; and the news loop, which
    invokes the snippet fetcher once per pass, makes at most 25 passes. *)
Theorem C7_at_most_25_search_calls (e : env) (i : inputs) :
  search_queries (snd (run e i)) = map news_query (searched e i)
  /\ length (search_queries (snd (run e i))) <= 25
  /\ length (nodup (list_eq_dec N.eq_dec) (searched e i)) <= 25
  /\ length (filter is_progress (snd (run e i))) <= 25.
Proof.
  assert (Hq : search_queries (snd (run e i)) = map news_query (searched e i))
    by apply analyze_search_queries.
  split; [exact Hq|]. split; [|split].
  - rewrite Hq, length_map. apply searched_length.
  - eapply Nat.le_trans; [apply nodup_length_le | apply searched_length].
  - apply analyze_progress.
Qed.

(** C8. End to end with both integrations switched off: with starters
    ["QB Bo, RB Al"] and nothing else filled in, the run shows the manual
    template as the analysis and offers for download the serialised report,
    which holds a timestamp, the two starters and that template under
    ["analysis"]. *)
Theorem C8_end_to_end_template (e : env) (i : inputs) :
  use_ai i = false -> use_google i = false ->
  starters_txt i = of_ascii "QB Bo, RB Al" ->
  bench_txt i = [] -> fa_txt i = [] -> trade_targets_txt i = [] ->
  notes i = [] ->
  exists r now,
    run e i
    = (Ret r, results_events (Some manual_template) ++ [download_event (rep_export r)])
    /\ rep_analysis r = Some manual_template
    /\ json_get (of_ascii "timestamp") (rep_export r) = Some (JInt now)
    /\ option_map (json_get (of_ascii "starters"))
         (json_get (of_ascii "inputs") (rep_export r))
       = Some (Some (JList [JStr (of_ascii "QB Bo"); JStr (of_ascii "RB Al")]))
    /\ json_get (of_ascii "analysis") (rep_export r)
       = Some (JStr manual_template).
Proof.
  intros Hai Hg Hs Hb Hf Ht Hn.
  assert (Hne : parse_pasted_list (starters_txt i) <> [])
    by (rewrite Hs; discriminate).
  destruct (analyze_run e i [] Hne)
    as (snippets & analysis & Hrun & Hoff & _ & _ & Hmanual & _).
  cbv zeta in Hrun. unfold news_events, ai_events in Hrun.
  rewrite Hg, Hai, (Hoff Hg), (Hmanual Hai) in Hrun. cbn [app] in Hrun.
  unfold run. rewrite Hrun.
  match type of Hrun with _ = (Ret ?r, _) => exists r end.
  eexists. split; [reflexivity|].
  split; [reflexivity|]. split; [reflexivity|]. split; [|reflexivity].
  cbn [rep_export]. rewrite Hs. reflexivity.
Qed.

Lemma C8_witness :
  exists r now,
    run offline (form false false (of_ascii "QB Bo, RB Al"))
    = (Ret r, results_events (Some manual_template) ++ [download_event (rep_export r)])
    /\ rep_analysis r = Some manual_template
    /\ json_get (of_ascii "timestamp") (rep_export r) = Some (JInt now)
    /\ option_map (json_get (of_ascii "starters"))
         (json_get (of_ascii "inputs") (rep_export r))
       = Some (Some (JList [JStr (of_ascii "QB Bo"); JStr (of_ascii "RB Al")]))
    /\ json_get (of_ascii "analysis") (rep_export r)
       = Some (JStr manual_template).
Proof.
  apply (C8_end_to_end_template offline
           (form false false (of_ascii "QB Bo, RB Al"))); reflexivity.
Defined.

(** C9. The league identifier does not influence any output: two runs whose
    inputs differ only in it are the same run, with the same prompt, the same
    analysis text, the same exported report and the same calls. *)
Theorem C9_league_id_unused (e : env) (i : inputs) (v : str) :
  sleeper_league_id (with_league_id i v) = v
  /\ run e (with_league_id i v) = run e i.
Proof. split; reflexivity. Qed.

(** C10. The names eligible for news are the starters, the bench, the trade
    targets and the first 10 free agents, in that order, cut to the first 25
    positions, with repeated names kept; a run's search calls are those for
    these names, so a free agent past the tenth position never causes one. *)
Theorem C10_names_for_news (e : env) (i : inputs) :
  let starters := parse_pasted_list (starters_txt i) in
  let bench := parse_pasted_list (bench_txt i) in
  let free_agents := parse_pasted_list (fa_txt i) in
  let trade_targets := parse_pasted_list (trade_targets_txt i) in
  names_for_news starters bench trade_targets free_agents
  = firstn 25 (starters ++ bench ++ trade_targets ++ firstn 10 free_agents)
  /\ search_queries (snd (run e i))
     = (if (truthy starters && use_google i
            && (truthy (GOOGLE_CSE_ID e) && truthy (GOOGLE_API_KEY e)))%bool
        then map news_query
               (firstn 25 (starters ++ bench ++ trade_targets
                           ++ firstn 10 free_agents))
        else [])
  /\ (forall S B T F,
        names_for_news S B T F = names_for_news S B T (firstn 10 F)).
Proof.
  cbv zeta.
  assert (Hnames :
    names_for_news (parse_pasted_list (starters_txt i))
      (parse_pasted_list (bench_txt i))
      (parse_pasted_list (trade_targets_txt i))
      (parse_pasted_list (fa_txt i))
    = firstn 25 (parse_pasted_list (starters_txt i)
                 ++ parse_pasted_list (bench_txt i)
                 ++ parse_pasted_list (trade_targets_txt i)
                 ++ firstn 10 (parse_pasted_list (fa_txt i)))).
  { rewrite names_for_news_firstn. apply filter_all.
    apply Forall_firstn. rewrite !Forall_app.
    repeat split; try apply parse_pasted_list_truthy.
    apply Forall_firstn, parse_pasted_list_truthy. }
  split; [exact Hnames|]. split.
  - unfold run. rewrite analyze_search_queries. unfold searched.
    rewrite Hnames. destruct (_ && _ && _)%bool; reflexivity.
  - intros S B T F. unfold names_for_news. rewrite firstn_firstn. reflexivity.
Qed.

(** * Further properties of the code *)

(** ** The list parser, once more *)

Lemma flat_map_split_at (p q : char -> bool) (s : str) :
  flat_map (split_at q) (split_at p s) = split_at (fun c => (p c || q c)%bool) s.
Proof.
  induction s as [|c s IH]; [reflexivity|].
  cbn [split_at]. destruct (p c) eqn:Hp; cbn [orb].
  - cbn [flat_map split_at app]. rewrite IH. reflexivity.
  - destruct (split_at p s) as [|l ls] eqn:E.
    { exfalso. exact (split_at_nonempty p s E). }
    cbn [flat_map split_at] in *. destruct (q c).
    + cbn [app]. rewrite IH. reflexivity.
    + rewrite <- IH. destruct (split_at q l) as [|l' ls'] eqn:E'.
      { exfalso. exact (split_at_nonempty q l E'). }
      reflexivity.
Qed.

(** The parser in one pass: cut at every delimiter, trim, drop the empty
    pieces. *)
Lemma parse_pasted_list_delimiters (txt : str) :
  parse_pasted_list txt
  = filter (A:=str) (@truthy char) (map strip (split_at is_delimiter txt)).
Proof.
  rewrite parse_pasted_list_spec. unfold spec_parse.
  rewrite flat_map_split_at. reflexivity.
Qed.

Lemma split_at_cut (p : char -> bool) (a b : str) (d : char) :
  p d = true -> split_at p (a ++ d :: b) = split_at p a ++ split_at p b.
Proof.
  intros Hd. induction a as [|x a IH]; cbn [app split_at].
  - rewrite Hd. reflexivity.
  - rewrite IH. destruct (p x); [reflexivity|].
    destruct (split_at p a) as [|l ls] eqn:E.
    { exfalso. exact (split_at_nonempty p a E). }
    reflexivity.
Qed.

Lemma parse_pasted_list_cut (a b : str) (d : char) :
  is_delimiter d = true ->
  parse_pasted_list (a ++ d :: b) = parse_pasted_list a ++ parse_pasted_list b.
Proof.
  intros Hd. rewrite !parse_pasted_list_delimiters.
  rewrite split_at_cut by exact Hd. rewrite map_app, filter_app. reflexivity.
Qed.

Lemma is_linebreak_space (c : char) : is_linebreak c = true -> is_space c = true.
Proof.
  unfold is_linebreak, is_space, in_range.
  rewrite !orb_true_iff, !andb_true_iff, !N.leb_le, !N.eqb_eq. lia.
Qed.

(** A blank that is no delimiter is whitespace. *)
Lemma blank_not_delimiter (c : char) :
  is_blank c = true -> is_delimiter c = false ->
  is_space c = true /\ is_comma_or_semicolon c = false.
Proof.
  unfold is_blank, is_delimiter. intros Hb Hd.
  apply orb_false_iff in Hd. destruct Hd as [_ Hs].
  rewrite Hs, orb_false_r in Hb. auto.
Qed.

Lemma strip_cons_space (c : char) (l : str) :
  is_space c = true -> strip (c :: l) = strip l.
Proof. intros H. unfold strip. cbn [lstrip]. rewrite H. reflexivity. Qed.

Lemma lstrip_snoc_space (c : char) (l : str) :
  is_space c = true ->
  lstrip (l ++ [c]) = match lstrip l with [] => [] | _ :: _ => lstrip l ++ [c] end.
Proof.
  intros Hc. induction l as [|x l IH]; cbn [app lstrip].
  - rewrite Hc. reflexivity.
  - destruct (is_space x); [exact IH | reflexivity].
Qed.

Lemma rstrip_snoc_space (c : char) (u : str) :
  is_space c = true -> rstrip (u ++ [c]) = rstrip u.
Proof.
  intros Hc. unfold rstrip. rewrite rev_unit. cbn [lstrip]. rewrite Hc.
  reflexivity.
Qed.

Lemma strip_snoc_space (c : char) (l : str) :
  is_space c = true -> strip (l ++ [c]) = strip l.
Proof.
  intros Hc. unfold strip. rewrite lstrip_snoc_space by exact Hc.
  destruct (lstrip l) as [|x r]; [reflexivity|].
  apply rstrip_snoc_space. exact Hc.
Qed.

Lemma split_at_snoc (p : char -> bool) (c : char) (t : str) :
  p c = false ->
  exists init l,
    split_at p t = init ++ [l] /\ split_at p (t ++ [c]) = init ++ [l ++ [c]].
Proof.
  intros Hc. induction t as [|x t IH].
  - exists [], []. cbn [app split_at]. rewrite Hc. auto.
  - destruct IH as (init & l & E1 & E2). cbn [app split_at].
    rewrite E1, E2. destruct (p x).
    + exists ([] :: init), l. auto.
    + destruct init as [|i0 init]; cbn [app].
      * exists [], (x :: l). auto.
      * exists ((x :: i0) :: init), l. auto.
Qed.

Lemma parse_pasted_list_cons_blank (c : char) (t : str) :
  is_blank c = true -> parse_pasted_list (c :: t) = parse_pasted_list t.
Proof.
  intros Hb. destruct (is_delimiter c) eqn:Hd.
  - exact (@parse_pasted_list_cut [] t c Hd).
  - destruct (@blank_not_delimiter c Hb Hd) as [Hs _].
    rewrite !parse_pasted_list_delimiters. cbn [split_at]. rewrite Hd.
    destruct (split_at is_delimiter t) as [|l ls] eqn:E; cbn [map].
    + exfalso. exact (split_at_nonempty is_delimiter t E).
    + rewrite strip_cons_space by exact Hs. reflexivity.
Qed.

Lemma parse_pasted_list_snoc_blank (c : char) (t : str) :
  is_blank c = true -> parse_pasted_list (t ++ [c]) = parse_pasted_list t.
Proof.
  intros Hb. destruct (is_delimiter c) eqn:Hd.
  - rewrite (@parse_pasted_list_cut t [] c Hd). apply app_nil_r.
  - destruct (@blank_not_delimiter c Hb Hd) as [Hs _].
    rewrite !parse_pasted_list_delimiters.
    destruct (@split_at_snoc is_delimiter c t Hd) as (init & l & -> & ->).
    rewrite !map_app. cbn [map]. rewrite strip_snoc_space by exact Hs.
    reflexivity.
Qed.

Lemma parse_pasted_list_app_blank_l (ws t : str) :
  forallb is_blank ws = true ->
  parse_pasted_list (ws ++ t) = parse_pasted_list t.
Proof.
  induction ws as [|c ws IH]; [reflexivity|]. cbn [forallb app].
  intros H. apply andb_prop in H. destruct H as [Hc Hws].
  rewrite parse_pasted_list_cons_blank by exact Hc. exact (IH Hws).
Qed.

Lemma parse_pasted_list_app_blank_r (ws : str) :
  forall t, forallb is_blank ws = true ->
            parse_pasted_list (t ++ ws) = parse_pasted_list t.
Proof.
  induction ws as [|c ws IH]; intros t H; [rewrite app_nil_r; reflexivity|].
  cbn [forallb] in H. apply andb_prop in H. destruct H as [Hc Hws].
  change (t ++ c :: ws) with (t ++ [c] ++ ws). rewrite app_assoc.
  rewrite (IH (t ++ [c]) Hws). apply parse_pasted_list_snoc_blank. exact Hc.
Qed.

Lemma clean_no_delimiter (p : str) :
  clean p -> forallb (fun c => negb (is_delimiter c)) p = true.
Proof.
  intros (_ & _ & Hsep & Hlb). apply forallb_forall. intros c Hc.
  rewrite forallb_forall in Hsep, Hlb.
  specialize (Hsep c Hc). specialize (Hlb c Hc).
  unfold is_delimiter. apply negb_true_iff in Hsep, Hlb.
  rewrite Hsep, Hlb. reflexivity.
Qed.

Lemma parse_pasted_list_clean (p : str) : clean p -> parse_pasted_list p = [p].
Proof.
  intros Hc. rewrite parse_pasted_list_delimiters.
  rewrite split_at_none by (apply clean_no_delimiter; exact Hc).
  destruct Hc as (Hne & Hs & _). cbn [map filter]. rewrite Hs.
  destruct p; [congruence | reflexivity].
Qed.

(** Clean names survive a join on any blank separator that holds a
    delimiter, and parsing. *)
Lemma parse_pasted_list_join (sep : str) (ps : list str) :
  forallb is_blank sep = true -> existsb is_delimiter sep = true ->
  Forall clean ps ->
  parse_pasted_list (join sep ps) = ps.
Proof.
  intros Hblank Hdel H.
  apply existsb_exists in Hdel. destruct Hdel as (d & Hin & Hd).
  apply in_split in Hin. destruct Hin as (s1 & s2 & ->).
  rewrite forallb_app in Hblank. apply andb_prop in Hblank.
  destruct Hblank as [Hs1 Hs2]. cbn [forallb] in Hs2.
  apply andb_prop in Hs2. destruct Hs2 as [_ Hs2].
  induction H as [|p ps Hp Hps IH]; [reflexivity|].
  destruct ps as [|q ps].
  - cbn [join]. apply parse_pasted_list_clean. exact Hp.
  - change (join (s1 ++ d :: s2) (p :: q :: ps))
      with (p ++ (s1 ++ d :: s2) ++ join (s1 ++ d :: s2) (q :: ps)).
    rewrite <- app_assoc, app_assoc. cbn [app].
    rewrite parse_pasted_list_cut by exact Hd.
    rewrite parse_pasted_list_app_blank_r by exact Hs1.
    rewrite parse_pasted_list_app_blank_l by exact Hs2.
    rewrite IH, (parse_pasted_list_clean Hp). reflexivity.
Qed.

Lemma split_at_covers (p : char -> bool) (c : char) (s : str) :
  In c s -> p c = false -> exists l, In l (split_at p s) /\ In c l.
Proof.
  intros Hin Hc. induction s as [|x s IH]; [destruct Hin|].
  cbn [split_at]. destruct Hin as [->|Hin].
  - rewrite Hc. destruct (split_at p s) as [|l ls].
    + exists [c]. split; left; reflexivity.
    + exists (c :: l). split; left; reflexivity.
  - destruct (IH Hin) as (l & Hl & Hcl). destruct (p x).
    + exists l. split; [right; exact Hl | exact Hcl].
    + destruct (split_at p s) as [|l0 ls]; [destruct Hl|].
      destruct Hl as [<-|Hl].
      * exists (x :: l0). split; [left; reflexivity | right; exact Hcl].
      * exists l. split; [right; exact Hl | exact Hcl].
Qed.

Lemma lstrip_keeps (c : char) (s : str) :
  In c s -> is_space c = false -> In c (lstrip s).
Proof.
  intros Hin Hc. induction s as [|x s IH]; [destruct Hin|].
  cbn [lstrip]. destruct (is_space x) eqn:Hx; [|exact Hin].
  destruct Hin as [->|Hin]; [congruence | exact (IH Hin)].
Qed.

Lemma strip_keeps (c : char) (s : str) :
  In c s -> is_space c = false -> In c (strip s).
Proof.
  intros Hin Hc. unfold strip, rstrip. apply in_rev.
  rewrite rev_involutive. apply lstrip_keeps; [|exact Hc].
  apply in_rev. rewrite rev_involutive. apply lstrip_keeps; assumption.
Qed.

(** Text that parses to nothing is blank. *)
Lemma parse_pasted_list_nil_blank (txt : str) :
  parse_pasted_list txt = [] -> forallb is_blank txt = true.
Proof.
  intros Hnil. apply forallb_forall. intros c Hc.
  destruct (is_blank c) eqn:Hb; [reflexivity|]. exfalso.
  unfold is_blank in Hb. apply orb_false_iff in Hb. destruct Hb as [Hs Hsep].
  assert (Hd : is_delimiter c = false).
  { unfold is_delimiter. rewrite Hsep, orb_false_r.
    destruct (is_linebreak c) eqn:Hlb; [|reflexivity].
    apply is_linebreak_space in Hlb. congruence. }
  destruct (@split_at_covers is_delimiter c txt Hc Hd) as (l & Hl & Hcl).
  pose proof (@strip_keeps c l Hcl Hs) as Hin.
  assert (Hp : In (strip l) (parse_pasted_list txt)).
  { rewrite parse_pasted_list_delimiters. apply filter_In. split.
    - apply in_map. exact Hl.
    - destruct (strip l); [destruct Hin | reflexivity]. }
  rewrite Hnil in Hp. destruct Hp.
Qed.

Lemma split_at_head_prefix (p : char -> bool) (s : str) :
  exists l ls b, split_at p s = l :: ls /\ s = l ++ b.
Proof.
  induction s as [|x s IH].
  - exists [], [], []. auto.
  - destruct IH as (l & ls & b & E & Es). cbn [split_at]. rewrite E.
    destruct (p x).
    + exists [], (l :: ls), (x :: s). auto.
    + exists (x :: l), ls, b. rewrite Es at 1. auto.
Qed.

Lemma split_at_substring (p : char -> bool) (l s : str) :
  In l (split_at p s) -> substring_of l s.
Proof.
  revert l. induction s as [|x s IH]; intros l Hl.
  - destruct Hl as [<-|[]]. exists [], []. reflexivity.
  - cbn [split_at] in Hl.
    destruct (split_at_head_prefix p s) as (l0 & ls & b & E & Es).
    assert (Hrest : In l (split_at p s) -> substring_of l (x :: s)).
    { intros H. destruct (IH l H) as (a & b' & ->). exists (x :: a), b'.
      reflexivity. }
    destruct (p x).
    + destruct Hl as [<-|Hl]; [exists [], (x :: s); reflexivity | auto].
    + rewrite E in Hl, Hrest. destruct Hl as [<-|Hl].
      * exists [], b. cbn [app]. rewrite Es at 1. reflexivity.
      * apply Hrest. right. exact Hl.
Qed.

Lemma lstrip_suffix (s : str) : exists a, s = a ++ lstrip s.
Proof.
  induction s as [|x s IH]; [exists []; reflexivity|].
  cbn [lstrip]. destruct (is_space x); [|exists []; reflexivity].
  destruct IH as (a & Ha). exists (x :: a). cbn [app]. rewrite <- Ha.
  reflexivity.
Qed.

Lemma strip_substring (s : str) : substring_of (strip s) s.
Proof.
  unfold strip, rstrip.
  destruct (lstrip_suffix s) as (a & Ha).
  destruct (lstrip_suffix (rev (lstrip s))) as (b & Hb).
  exists a, (rev b). rewrite <- rev_app_distr, <- Hb, rev_involutive. exact Ha.
Qed.

Lemma substring_of_trans (a b c : str) :
  substring_of a b -> substring_of b c -> substring_of a c.
Proof.
  intros (x & y & ->) (u & v & ->). exists (u ++ x), (y ++ v).
  rewrite <- !app_assoc. reflexivity.
Qed.

(** ** The services and the news loop, once more *)

(** The snippet fetcher in closed form: its value and the one call it may
    make. *)
Lemma google_news_snippets_value (e : env) (query : str) (num : nat) (tr : trace) :
  google_news_snippets e query num tr
  = (Ret (snippets_value e query num tr),
     tr ++ (if searchable e query
            then [EvSearch (search_request_for e query num)] else [])).
Proof.
  unfold google_news_snippets, snippets_value, searchable.
  destruct (truthy (GOOGLE_CSE_ID e) && truthy (GOOGLE_API_KEY e))%bool;
    destruct (truthy query); cbn [negb orb andb];
    try (unfold ret; rewrite app_nil_r; reflexivity).
  unfold try_except, bind, call_search.
  destruct (search_service e tr (search_request_for e query num));
    reflexivity.
Qed.

Lemma str_eqb_refl (a : str) : str_eqb a a = true.
Proof.
  induction a as [|x a IH]; [reflexivity|].
  cbn [str_eqb]. rewrite N.eqb_refl, IH. reflexivity.
Qed.

Lemma dict_set_keys_inv (k n : str) (v : list news_snippet) (d : snippet_map) :
  In n (map fst (dict_set k v d)) -> n = k \/ In n (map fst d).
Proof.
  induction d as [|[k' v'] d IH]; cbn [dict_set map fst In].
  - intros [<-|[]]. left. reflexivity.
  - destruct (str_eqb k' k); cbn [map fst In].
    + intros [H|H]; auto.
    + intros [H|H]; [auto|]. destruct (IH H); auto.
Qed.

(** Assignment keeps the keys of the map distinct. *)
Lemma dict_set_NoDup (k : str) (v : list news_snippet) (d : snippet_map) :
  NoDup (map fst d) -> NoDup (map fst (dict_set k v d)).
Proof.
  induction d as [|[k' v'] d IH]; cbn [dict_set map fst]; intros H.
  - constructor; [intros [] | constructor].
  - inversion H as [|? ? Hnotin Hnodup]; subst.
    destruct (str_eqb k' k) eqn:Hk; cbn [map fst].
    + constructor; assumption.
    + constructor; [|exact (IH Hnodup)].
      intros Hin. apply dict_set_keys_inv in Hin. destruct Hin as [->|Hin].
      * rewrite str_eqb_refl in Hk. discriminate.
      * exact (Hnotin Hin).
Qed.

Lemma dict_set_values (P : list news_snippet -> Prop) (k : str)
    (v : list news_snippet) (d : snippet_map) :
  P v -> Forall (fun kv => P (snd kv)) d ->
  Forall (fun kv => P (snd kv)) (dict_set k v d).
Proof.
  intros Hv. induction 1 as [|[k' v'] d Hk Hd IH]; cbn [dict_set].
  - constructor; [exact Hv | constructor].
  - destruct (str_eqb k' k); constructor; auto.
Qed.

(** What the news loop keeps: distinct keys, keys among the names gone over,
    and any property of the values that the empty list and every converted
    response have. *)
Lemma fetch_news_inv (e : env) (total : nat) (P : list news_snippet -> Prop)
    (names : list str) :
  P [] ->
  (forall tr name res,
     search_service e tr (search_request_for e name 2) = inr res ->
     P (snippets_of_response res)) ->
  forall (i : nat) (d : snippet_map) (tr : trace) (d' : snippet_map) (tr' : trace),
    fetch_news e total i names d tr = (Ret d', tr') ->
    (NoDup (map fst d) -> NoDup (map fst d'))
    /\ (forall n, In n (map fst d') -> In n names \/ In n (map fst d))
    /\ (Forall (fun kv => P (snd kv)) d -> Forall (fun kv => P (snd kv)) d').
Proof.
  intros Hnil Hres.
  induction names as [|name rest IH]; intros i d tr d' tr' Hrun.
  - cbn [fetch_news] in Hrun. injection Hrun as <- <-. auto.
  - cbn [fetch_news] in Hrun.
    rewrite (bind_ret _ _ (google_news_snippets_value e name 2 tr)) in Hrun.
    rewrite bind_emit in Hrun.
    destruct (IH _ _ _ _ _ Hrun) as (Hnodup & Hkeys & Hvals).
    split; [|split].
    + intros H. apply Hnodup, dict_set_NoDup, H.
    + intros n Hn. destruct (Hkeys n Hn) as [H|H]; [left; right; exact H|].
      apply dict_set_keys_inv in H. destruct H as [->|H]; [left; left|right]; auto.
    + intros H. apply Hvals, dict_set_values; [|exact H].
      unfold snippets_value. destruct (searchable e name); [|exact Hnil].
      destruct (search_service e tr (search_request_for e name 2)) eqn:E;
        [exact Hnil | exact (Hres _ _ _ E)].
Qed.

Lemma pull_news_inv (e : env) (i : inputs) (P : list news_snippet -> Prop)
    (S B T F : list str) (tr tr' : trace) (snippets : snippet_map) :
  P [] ->
  (forall tr name res,
     search_service e tr (search_request_for e name 2) = inr res ->
     P (snippets_of_response res)) ->
  pull_news e i S B T F tr = (Ret snippets, tr') ->
  NoDup (map fst snippets)
  /\ (forall n, In n (map fst snippets) ->
                use_google i = true /\ In n (names_for_news S B T F))
  /\ Forall (fun kv => P (snd kv)) snippets.
Proof.
  intros Hnil Hres Hrun. unfold pull_news in Hrun.
  destruct (use_google i).
  - rewrite bind_emit in Hrun. unfold bind at 1 in Hrun.
    destruct (fetch_news e _ 1 _ [] _) as [[d'|ex|] tr''] eqn:E;
      try discriminate.
    rewrite bind_emit in Hrun. injection Hrun as <- <-.
    destruct (@fetch_news_inv e _ P _ Hnil Hres _ _ _ _ _ E)
      as (Hnodup & Hkeys & Hvals).
    split; [apply Hnodup; constructor|]. split; [|apply Hvals; constructor].
    intros n Hn. destruct (Hkeys n Hn) as [H|[]]. auto.
  - injection Hrun as <- <-.
    split; [constructor|]. split; [intros n []|constructor].
Qed.

(** The phases of a run that has starters, with what each returns. *)
Lemma analyze_phases (e : env) (i : inputs) (tr : trace) :
  parse_pasted_list (starters_txt i) <> [] ->
  exists snippets analysis,
    let starters := parse_pasted_list (starters_txt i) in
    let bench := parse_pasted_list (bench_txt i) in
    let free_agents := parse_pasted_list (fa_txt i) in
    let trade_targets := parse_pasted_list (trade_targets_txt i) in
    let names := names_for_news starters bench trade_targets free_agents in
    let payload :=
      user_payload i starters bench free_agents trade_targets snippets in
    let prompt := user_prompt payload in
    let tr1 := tr ++ news_events e i names in
    let tr2 := tr1 ++ ai_events e i prompt in
    let export :=
      export_json (clock e (tr2 ++ results_events analysis)) i payload analysis in
    pull_news e i starters bench trade_targets free_agents tr = (Ret snippets, tr1)
    /\ analysis_text e i prompt tr1 = (Ret analysis, tr2)
    /\ analyze e i tr
       = (Ret {| rep_snippets := snippets;
                 rep_user_prompt := prompt;
                 rep_analysis := analysis;
                 rep_export := export |},
          tr2 ++ results_events analysis ++ [download_event export]).
Proof.
  intros Hs.
  destruct (pull_news_run e i (parse_pasted_list (starters_txt i))
              (parse_pasted_list (bench_txt i))
              (parse_pasted_list (trade_targets_txt i))
              (parse_pasted_list (fa_txt i)) tr) as (snippets & Hp & _).
  destruct (analysis_text_run e i
              (user_prompt
                 (user_payload i (parse_pasted_list (starters_txt i))
                    (parse_pasted_list (bench_txt i))
                    (parse_pasted_list (fa_txt i))
                    (parse_pasted_list (trade_targets_txt i)) snippets))
              (tr ++ news_events e i
                       (names_for_news (parse_pasted_list (starters_txt i))
                          (parse_pasted_list (bench_txt i))
                          (parse_pasted_list (trade_targets_txt i))
                          (parse_pasted_list (fa_txt i)))))
    as (analysis & Ha & _).
  exists snippets, analysis. cbv zeta.
  split; [exact Hp|]. split; [exact Ha|].
  unfold analyze. cbv zeta.
  rewrite (bind_ret _ _ (require_starters_ok tr Hs)).
  rewrite (bind_ret _ _ Hp), (bind_ret _ _ Ha), !bind_emit, bind_time_now.
  rewrite (bind_ret _ _ (download_button_run _ _)).
  unfold ret, results_events. rewrite <- !app_assoc. reflexivity.
Qed.

(** A run that completes had starters. *)
Lemma run_ret_starters (e : env) (i : inputs) (r : report) (tr : trace) :
  run e i = (Ret r, tr) -> parse_pasted_list (starters_txt i) <> [].
Proof.
  intros Hrun HS. unfold run in Hrun.
  rewrite (analyze_halts e i [] HS) in Hrun. discriminate.
Qed.

(** The two ways a run can go, with the history it leaves. *)
Lemma run_cases (e : env) (i : inputs) :
  let starters := parse_pasted_list (starters_txt i) in
  let bench := parse_pasted_list (bench_txt i) in
  let free_agents := parse_pasted_list (fa_txt i) in
  let trade_targets := parse_pasted_list (trade_targets_txt i) in
  let names := names_for_news starters bench trade_targets free_agents in
  (starters = [] /\ run e i = (Halt, [error_event]))
  \/ (exists r,
        let news := news_events e i names in
        let ai := ai_events e i (rep_user_prompt r) in
        starters <> []
        /\ pull_news e i starters bench trade_targets free_agents []
           = (Ret (rep_snippets r), news)
        /\ analysis_text e i (rep_user_prompt r) news
           = (Ret (rep_analysis r), news ++ ai)
        /\ rep_user_prompt r
           = user_prompt (user_payload i starters bench free_agents
                            trade_targets (rep_snippets r))
        /\ rep_export r
           = export_json (clock e (news ++ ai ++ results_events (rep_analysis r)))
               i
               (user_payload i starters bench free_agents trade_targets
                  (rep_snippets r))
               (rep_analysis r)
        /\ run e i
           = (Ret r,
              news ++ ai ++ results_events (rep_analysis r)
              ++ [download_event (rep_export r)])).
Proof.
  cbv zeta. unfold run.
  destruct (truthy_cases (parse_pasted_list (starters_txt i))) as [[HS _]|[Hne _]].
  - left. split; [exact HS | exact (analyze_halts e i [] HS)].
  - right. destruct (analyze_phases e i [] Hne)
      as (snippets & analysis & Hp & Ha & Hrun).
    cbv zeta in Hp, Ha, Hrun. cbn [app] in Hp, Ha, Hrun.
    rewrite <- !app_assoc in Hrun.
    match type of Hrun with _ = (Ret ?r, _) => exists r end.
    cbn [rep_snippets rep_user_prompt rep_analysis rep_export].
    split; [exact Hne|]. split; [exact Hp|]. split; [exact Ha|].
    split; [reflexivity|]. split; [reflexivity | exact Hrun].
Qed.

Lemma progress_steps_app (a b : trace) :
  progress_steps (a ++ b) = progress_steps a ++ progress_steps b.
Proof.
  induction a as [|ev a IH]; [reflexivity|].
  destruct ev; cbn [app progress_steps]; rewrite IH; reflexivity.
Qed.

Lemma completion_requests_app (a b : trace) :
  completion_requests (a ++ b) = completion_requests a ++ completion_requests b.
Proof.
  induction a as [|ev a IH]; [reflexivity|].
  destruct ev; cbn [app completion_requests]; rewrite IH; reflexivity.
Qed.

Lemma search_requests_app (a b : trace) :
  search_requests (a ++ b) = search_requests a ++ search_requests b.
Proof.
  induction a as [|ev a IH]; [reflexivity|].
  destruct ev; cbn [app search_requests]; rewrite IH; reflexivity.
Qed.

Lemma progress_steps_fetch_events (e : env) (total : nat) (names : list str) :
  forall i, progress_steps (fetch_events e total i names)
            = map (fun k => (k, total)) (seq i (length names)).
Proof.
  induction names as [|n names IH]; intros i; [reflexivity|].
  cbn [fetch_events length seq map]. rewrite progress_steps_app.
  destruct (searchable e n); cbn [progress_steps app]; rewrite IH; reflexivity.
Qed.

Lemma search_requests_fetch_events (e : env) (total : nat) (names : list str) :
  forall i, search_requests (fetch_events e total i names)
            = map (fun n => search_request_for e n 2) (filter (searchable e) names).
Proof.
  induction names as [|n names IH]; intros i; [reflexivity|].
  cbn [fetch_events filter]. rewrite search_requests_app.
  destruct (searchable e n); cbn [search_requests app map]; rewrite IH;
    reflexivity.
Qed.

(** The news loop calls no completion and shows no result. *)
Lemma fetch_events_quiet (e : env) (total : nat) (names : list str) :
  forall i,
    completion_requests (fetch_events e total i names) = []
    /\ existsb is_completion (fetch_events e total i names) = false
    /\ existsb is_output (fetch_events e total i names) = false.
Proof.
  induction names as [|n names IH]; intros i; [repeat split|].
  cbn [fetch_events]. destruct (IH (S i)) as (H1 & H2 & H3).
  rewrite completion_requests_app, !existsb_app.
  destruct (searchable e n);
    cbn [completion_requests existsb is_completion is_output app orb];
    rewrite H1, H2, H3; repeat split.
Qed.

Lemma news_events_quiet (e : env) (i : inputs) (names : list str) :
  completion_requests (news_events e i names) = []
  /\ existsb is_completion (news_events e i names) = false
  /\ existsb is_output (news_events e i names) = false.
Proof.
  unfold news_events. destruct (use_google i); [|repeat split].
  destruct (fetch_events_quiet e (length names) names 1) as (H1 & H2 & H3).
  cbn [completion_requests existsb is_completion is_output orb].
  rewrite completion_requests_app, !existsb_app, H1, H2, H3. repeat split.
Qed.

Lemma ai_events_quiet (e : env) (i : inputs) (prompt : str) :
  search_requests (ai_events e i prompt) = []
  /\ progress_steps (ai_events e i prompt) = []
  /\ existsb is_search (ai_events e i prompt) = false
  /\ existsb is_output (ai_events e i prompt) = false.
Proof.
  unfold ai_events. destruct (use_ai i); [|repeat split].
  destruct (truthy (OPENAI_API_KEY e)); repeat split.
Qed.

Lemma names_for_news_parsed (i : inputs) :
  names_for_news (parse_pasted_list (starters_txt i))
    (parse_pasted_list (bench_txt i))
    (parse_pasted_list (trade_targets_txt i))
    (parse_pasted_list (fa_txt i))
  = firstn 25 (parse_pasted_list (starters_txt i)
               ++ parse_pasted_list (bench_txt i)
               ++ parse_pasted_list (trade_targets_txt i)
               ++ firstn 10 (parse_pasted_list (fa_txt i))).
Proof.
  rewrite names_for_news_firstn. apply filter_all.
  apply Forall_firstn. rewrite !Forall_app.
  repeat split; try apply parse_pasted_list_truthy.
  apply Forall_firstn, parse_pasted_list_truthy.
Qed.

Lemma split_at_unify_delimiters (d : char) (s : str) :
  is_delimiter d = true ->
  split_at is_delimiter (map (fun c => if is_delimiter c then d else c) s)
  = split_at is_delimiter s.
Proof.
  intros Hd. induction s as [|c s IH]; [reflexivity|].
  cbn [map split_at]. destruct (is_delimiter c) eqn:Hc.
  - rewrite Hd, IH. reflexivity.
  - rewrite Hc, IH. reflexivity.
Qed.

(** ** Further properties: the list parser *)

(** X1. [parse_pasted_list] treats line boundaries, commas and semicolons
    alike: its result is the text cut at every such delimiter in one pass,
    each piece trimmed, the empty pieces dropped. *)
Theorem X1_parse_single_pass (txt : str) :
  parse_pasted_list txt
  = filter (A:=str) (@truthy char) (map strip (split_at is_delimiter txt)).
Proof. apply parse_pasted_list_delimiters. Qed.

(** X2. Parsing distributes over a delimiter: the names of [a], a delimiter,
    then [b] are the names of [a] followed by the names of [b]. *)
Theorem X2_parse_distributes_over_delimiter (a b : str) (d : char) :
  is_delimiter d = true ->
  parse_pasted_list (a ++ d :: b) = parse_pasted_list a ++ parse_pasted_list b.
Proof. apply parse_pasted_list_cut. Qed.

Lemma X2_witness :
  is_delimiter LF = true
  /\ parse_pasted_list (of_ascii "QB Bo; RB Al" ++ LF :: of_ascii "WR Cy")
     = parse_pasted_list (of_ascii "QB Bo; RB Al") ++ parse_pasted_list (of_ascii "WR Cy").
Proof.
  split; [reflexivity|].
  apply (@X2_parse_distributes_over_delimiter
           (of_ascii "QB Bo; RB Al") (of_ascii "WR Cy") LF).
  reflexivity.
Defined.

(** X3. The parser returns no name exactly when the text is blank, that is
    made of whitespace, commas and semicolons only. *)
Theorem X3_parse_empty_iff_blank (txt : str) :
  truthy (parse_pasted_list txt) = negb (forallb is_blank txt).
Proof.
  destruct (forallb is_blank txt) eqn:Hb; cbn [negb].
  - rewrite parse_pasted_list_spec, spec_parse_blank by exact Hb. reflexivity.
  - destruct (parse_pasted_list txt) eqn:E; [|reflexivity].
    apply parse_pasted_list_nil_blank in E. congruence.
Qed.

(** X4. Every name the parser returns is a contiguous part of the text, is
    not empty, has no whitespace at either end, and holds no comma, no
    semicolon and no line boundary. *)
Theorem X4_parsed_names_are_clean_substrings (txt : str) :
  Forall (fun p => clean p /\ substring_of p txt) (parse_pasted_list txt).
Proof.
  apply Forall_forall. intros p Hp. split.
  - pose proof (spec_parse_clean txt) as H. rewrite <- parse_pasted_list_spec in H.
    rewrite Forall_forall in H. exact (H p Hp).
  - rewrite parse_pasted_list_delimiters in Hp.
    apply filter_In in Hp. destruct Hp as [Hp _].
    apply in_map_iff in Hp. destruct Hp as (l & <- & Hl).
    eapply substring_of_trans; [apply strip_substring|].
    eapply split_at_substring. exact Hl.
Qed.

(** X5. Round trip: clean names joined on a separator that is blank and
    holds a delimiter (a comma, a comma and a space, a line feed, CR LF) parse
    back to the same names. *)
Theorem X5_join_then_parse (sep : str) (ps : list str) :
  forallb is_blank sep = true -> existsb is_delimiter sep = true ->
  Forall clean ps ->
  parse_pasted_list (join sep ps) = ps.
Proof. apply parse_pasted_list_join. Qed.

Lemma X5_witness :
  forallb is_blank [CR; LF] = true /\ existsb is_delimiter [CR; LF] = true
  /\ Forall clean [of_ascii "QB Bo"; of_ascii "RB Al"; of_ascii "WR Cy"]
  /\ parse_pasted_list
       (join [CR; LF] [of_ascii "QB Bo"; of_ascii "RB Al"; of_ascii "WR Cy"])
     = [of_ascii "QB Bo"; of_ascii "RB Al"; of_ascii "WR Cy"].
Proof.
  assert (H : Forall clean [of_ascii "QB Bo"; of_ascii "RB Al"; of_ascii "WR Cy"]).
  { repeat constructor; discriminate. }
  split; [reflexivity|]. split; [reflexivity|]. split; [exact H|].
  apply (@X5_join_then_parse [CR; LF]
           [of_ascii "QB Bo"; of_ascii "RB Al"; of_ascii "WR Cy"]);
    [reflexivity | reflexivity | exact H].
Defined.

(** X6. Blank text before and after the list does not change the names:
    leading and trailing spaces, empty lines and stray separators are
    ignored. *)
Theorem X6_parse_ignores_blank_padding (ws1 ws2 txt : str) :
  forallb is_blank ws1 = true -> forallb is_blank ws2 = true ->
  parse_pasted_list (ws1 ++ txt ++ ws2) = parse_pasted_list txt.
Proof.
  intros H1 H2. rewrite parse_pasted_list_app_blank_l by exact H1.
  apply parse_pasted_list_app_blank_r. exact H2.
Qed.

Lemma X6_witness :
  forallb is_blank (of_ascii " ,  ") = true
  /\ forallb is_blank [32; 13; 10; 59; 10]%N = true
  /\ parse_pasted_list (of_ascii " ,  " ++ of_ascii "QB Bo, RB Al"
                        ++ [32; 13; 10; 59; 10]%N)
     = parse_pasted_list (of_ascii "QB Bo, RB Al").
Proof.
  split; [reflexivity|]. split; [reflexivity|].
  apply (@X6_parse_ignores_blank_padding (of_ascii " ,  ") [32; 13; 10; 59; 10]%N
           (of_ascii "QB Bo, RB Al")); reflexivity.
Defined.

(** X7. The delimiters are interchangeable: writing one delimiter in the
    place of every line boundary, comma and semicolon of the text gives the
    same names. *)
Theorem X7_delimiters_interchangeable (d : char) (txt : str) :
  is_delimiter d = true ->
  parse_pasted_list (map (fun c => if is_delimiter c then d else c) txt)
  = parse_pasted_list txt.
Proof.
  intros Hd. rewrite !parse_pasted_list_delimiters.
  rewrite split_at_unify_delimiters by exact Hd. reflexivity.
Qed.

Lemma X7_witness :
  is_delimiter comma = true
  /\ parse_pasted_list
       (map (fun c => if is_delimiter c then comma else c)
            (of_ascii "QB Bo; RB Al" ++ [CR; LF] ++ of_ascii "WR Cy"))
     = parse_pasted_list (of_ascii "QB Bo; RB Al" ++ [CR; LF] ++ of_ascii "WR Cy").
Proof.
  split; [reflexivity|].
  apply (@X7_delimiters_interchangeable comma
           (of_ascii "QB Bo; RB Al" ++ [CR; LF] ++ of_ascii "WR Cy")).
  reflexivity.
Defined.

(** ** Further properties: the names eligible for news *)

(** X8. For any four lists, also with empty names in them, the names eligible
    for news are the non-empty names among the first 25 positions of
    starters, bench, trade targets and the first 10 free agents: an empty
    name uses up its position. There are at most 25 of them. *)
Theorem X8_names_for_news_positions (S B T F : list str) :
  names_for_news S B T F
  = filter (A:=str) (@truthy char) (firstn 25 (S ++ B ++ T ++ firstn 10 F))
  /\ length (names_for_news S B T F) <= 25
  /\ Forall (fun n => n <> []) (names_for_news S B T F).
Proof.
  split; [apply names_for_news_firstn|]. split; [apply names_for_news_length|].
  eapply Forall_impl; [|apply names_for_news_truthy].
  intros n Hn E. rewrite E in Hn. discriminate.
Qed.

(** X9. In a run the 25 places go to the starters first, then to the bench,
    then to the trade targets, and what is left, at most 10, to the free
    agents. *)
Theorem X9_names_for_news_quota (i : inputs) :
  let starters := parse_pasted_list (starters_txt i) in
  let bench := parse_pasted_list (bench_txt i) in
  let free_agents := parse_pasted_list (fa_txt i) in
  let trade_targets := parse_pasted_list (trade_targets_txt i) in
  names_for_news starters bench trade_targets free_agents
  = firstn 25 starters
    ++ firstn (25 - length starters) bench
    ++ firstn (25 - length starters - length bench) trade_targets
    ++ firstn (Nat.min (25 - length starters - length bench
                        - length trade_targets) 10)
         free_agents.
Proof.
  cbv zeta. rewrite names_for_news_parsed.
  rewrite !firstn_app, firstn_firstn. reflexivity.
Qed.

(** ** Further properties: the services and the run *)

Lemma progress_steps_news_events (e : env) (i : inputs) (names : list str) :
  progress_steps (news_events e i names)
  = if use_google i
    then map (fun k => (k, length names)) (seq 1 (length names)) else [].
Proof.
  unfold news_events. destruct (use_google i); [|reflexivity].
  cbn [progress_steps]. rewrite progress_steps_app, progress_steps_fetch_events.
  apply app_nil_r.
Qed.

Lemma search_requests_news_events (e : env) (i : inputs) (names : list str) :
  search_requests (news_events e i names)
  = if use_google i
    then map (fun n => search_request_for e n 2) (filter (searchable e) names)
    else [].
Proof.
  unfold news_events. destruct (use_google i); [|reflexivity].
  cbn [search_requests]. rewrite search_requests_app, search_requests_fetch_events.
  apply app_nil_r.
Qed.

Lemma existsb_false_filter {A} (p : A -> bool) (l : list A) :
  existsb p l = false -> filter p l = [].
Proof.
  induction l as [|x l IH]; [reflexivity|]. cbn [existsb filter].
  intros H. apply orb_false_iff in H. destruct H as [-> Hl]. exact (IH Hl).
Qed.

(** X10. The snippet map of a completed run has one entry per distinct name:
    its keys are distinct, they are the names eligible for news when the
    search toggle is on and none when it is off, and there are at most 25. *)
Theorem X10_snippet_map_keys (e : env) (i : inputs) (r : report) (tr : trace) :
  run e i = (Ret r, tr) ->
  NoDup (map fst (rep_snippets r))
  /\ (forall n,
        In n (map fst (rep_snippets r))
        <-> use_google i = true
            /\ In n (names_for_news (parse_pasted_list (starters_txt i))
                       (parse_pasted_list (bench_txt i))
                       (parse_pasted_list (trade_targets_txt i))
                       (parse_pasted_list (fa_txt i))))
  /\ length (rep_snippets r) <= 25.
Proof.
  intros Hrun.
  destruct (run_cases e i) as [[_ Hhalt]|(r' & _ & Hp & _ & _ & _ & Hrun')];
    cbv zeta in *; [congruence|].
  rewrite Hrun in Hrun'. injection Hrun' as <- _.
  destruct (@pull_news_inv e i (fun _ => True) _ _ _ _ _ _ _ I
              (fun _ _ _ _ => I) Hp) as (Hnodup & Hkeys & _).
  destruct (pull_news_run e i (parse_pasted_list (starters_txt i))
              (parse_pasted_list (bench_txt i))
              (parse_pasted_list (trade_targets_txt i))
              (parse_pasted_list (fa_txt i)) [])
    as (snippets' & Hp' & _ & _ & Hback).
  rewrite Hp in Hp'. injection Hp' as <-.
  split; [exact Hnodup|]. split.
  - intros n. split; [apply Hkeys | intros [Hg Hn]; exact (Hback Hg n Hn)].
  - rewrite <- (length_map fst).
    eapply Nat.le_trans; [|apply names_for_news_length].
    apply NoDup_incl_length; [exact Hnodup|].
    intros n Hn. apply (Hkeys n Hn).
Qed.

Lemma X10_witness :
  exists r tr,
    run answering (form false true (of_ascii "QB Bo, RB Al, QB Bo")) = (Ret r, tr)
    /\ NoDup (map fst (rep_snippets r))
    /\ length (rep_snippets r) <= 25.
Proof.
  remember (run answering (form false true (of_ascii "QB Bo, RB Al, QB Bo")))
    as x eqn:E.
  destruct x as [[r|ex|] tr];
    [|exfalso; vm_compute in E; discriminate E ..].
  exists r, tr. split; [reflexivity|].
  destruct (@X10_snippet_map_keys answering
              (form false true (of_ascii "QB Bo, RB Al, QB Bo")) r tr
              (eq_sym E)) as (H1 & _ & H3).
  split; assumption.
Defined.

(** X11. The progress bar of a run: with the search toggle on it is set, in
    order, to [1/n, 2/n, ..., n/n] for the [n] names eligible for news, and
    never otherwise; every value lies in (0, 1], and [n] is never 0 where it
    divides. *)
Theorem X11_progress_steps (e : env) (i : inputs) :
  let names :=
    names_for_news (parse_pasted_list (starters_txt i))
      (parse_pasted_list (bench_txt i))
      (parse_pasted_list (trade_targets_txt i))
      (parse_pasted_list (fa_txt i)) in
  progress_steps (snd (run e i))
  = (if (truthy (parse_pasted_list (starters_txt i)) && use_google i)%bool
     then map (fun k => (k, length names)) (seq 1 (length names))
     else [])
  /\ Forall (fun p => 1 <= fst p <= snd p /\ snd p <= 25)
            (progress_steps (snd (run e i))).
Proof.
  cbv zeta.
  assert (Heq : progress_steps (snd (run e i))
    = (if (truthy (parse_pasted_list (starters_txt i)) && use_google i)%bool
       then map (fun k => (k, length (names_for_news
                                        (parse_pasted_list (starters_txt i))
                                        (parse_pasted_list (bench_txt i))
                                        (parse_pasted_list (trade_targets_txt i))
                                        (parse_pasted_list (fa_txt i)))))
                (seq 1 (length (names_for_news
                                  (parse_pasted_list (starters_txt i))
                                  (parse_pasted_list (bench_txt i))
                                  (parse_pasted_list (trade_targets_txt i))
                                  (parse_pasted_list (fa_txt i)))))
       else [])).
  { destruct (run_cases e i) as [[HS ->]|(r & Hne & _ & _ & _ & _ & ->)];
      cbv zeta in *.
    - rewrite HS. reflexivity.
    - cbn [snd]. rewrite !progress_steps_app, progress_steps_news_events.
      destruct (ai_events_quiet e i (rep_user_prompt r)) as (_ & -> & _).
      cbn [progress_steps results_events download_event app].
      rewrite app_nil_r.
      destruct (parse_pasted_list (starters_txt i)); [congruence | reflexivity]. }
  split; [exact Heq|]. rewrite Heq.
  destruct (_ && _)%bool; [|constructor].
  apply Forall_forall. intros p Hp. apply in_map_iff in Hp.
  destruct Hp as (k & <- & Hk). apply in_seq in Hk. cbn [fst snd].
  pose proof (names_for_news_length (parse_pasted_list (starters_txt i))
                (parse_pasted_list (bench_txt i))
                (parse_pasted_list (trade_targets_txt i))
                (parse_pasted_list (fa_txt i))).
  lia.
Qed.

(** X12. The snippet fetcher fails closed and never raises: it returns the
    empty list without calling the service when a credential or the name is
    missing, the empty list when the one call it makes raises, and otherwise
    one snippet per item of the response, a missing field read as the empty
    string, and none when the response has no ["items"]. *)
Theorem X12_google_news_snippets_fails_closed
    (e : env) (query : str) (num : nat) (tr : trace) :
  google_news_snippets e query num tr
  = (Ret (snippets_value e query num tr),
     tr ++ (if searchable e query
            then [EvSearch (search_request_for e query num)] else []))
  /\ (searchable e query = false -> google_news_snippets e query num tr = (Ret [], tr))
  /\ (forall ex,
        search_service e tr (search_request_for e query num) = inl ex ->
        fst (google_news_snippets e query num tr) = Ret [])
  /\ (forall items,
        searchable e query = true ->
        search_service e tr (search_request_for e query num)
        = inr {| res_items := Some items |} ->
        fst (google_news_snippets e query num tr)
        = Ret (map (fun it => {| title := get_default (it_title it);
                                 link := get_default (it_link it);
                                 snippet := get_default (it_snippet it) |})
                   items))
  /\ (searchable e query = true ->
      search_service e tr (search_request_for e query num)
      = inr {| res_items := None |} ->
      fst (google_news_snippets e query num tr) = Ret []).
Proof.
  rewrite google_news_snippets_value. unfold snippets_value.
  split; [reflexivity|]. split; [|split; [|split]].
  - intros ->. rewrite app_nil_r. reflexivity.
  - intros ex ->. cbn [fst]. destruct (searchable e query); reflexivity.
  - intros items -> ->. reflexivity.
  - intros -> ->. reflexivity.
Qed.

Lemma X12_witness :
  searchable answering (of_ascii "QB Bo") = true
  /\ fst (google_news_snippets answering (of_ascii "QB Bo") 2 [])
     = Ret [ {| title := of_ascii "Out for week 3";
                link := of_ascii "https://example.org/a";
                snippet := of_ascii "QB Bo NFL news injury status" |};
             {| title := of_ascii "Back at practice"; link := []; snippet := [] |};
             {| title := []; link := []; snippet := [] |} ]
  /\ searchable offline (of_ascii "QB Bo") = false
  /\ google_news_snippets offline (of_ascii "QB Bo") 2 [] = (Ret [], []).
Proof.
  split; [reflexivity|]. split.
  - refine (proj1 (proj2 (proj2 (proj2
      (X12_google_news_snippets_fails_closed answering (of_ascii "QB Bo") 2 []))))
      _ eq_refl eq_refl).
  - split; [reflexivity|].
    exact (proj1 (proj2
      (X12_google_news_snippets_fails_closed offline (of_ascii "QB Bo") 2 []))
      eq_refl).
Defined.

(** X13. When the endpoint answers, the completion client returns the
    content of the first choice, whatever the other choices are, after
    exactly one call. *)
Theorem X13_openai_complete_first_choice
    (e : env) (sp up : str) (t : Q) (tr : trace)
    (c : option str) (rest : list (option str)) :
  OPENAI_API_KEY e <> [] ->
  completion_service e tr (completion_request_for e sp up t)
  = inr {| choices := c :: rest |} ->
  openai_complete e sp up t tr
  = (Ret c, tr ++ [EvCompletion (completion_request_for e sp up t)]).
Proof.
  intros Hkey Hresp. rewrite openai_complete_run. unfold completion_value.
  rewrite Hresp. destruct (OPENAI_API_KEY e); [congruence | reflexivity].
Qed.

Lemma X13_witness :
  OPENAI_API_KEY answering <> []
  /\ openai_complete answering system_prompt (of_ascii "hello") default_temperature []
     = (Ret (Some (of_ascii "Start Bo.")),
        [EvCompletion (completion_request_for answering system_prompt
                         (of_ascii "hello") default_temperature)]).
Proof.
  split; [discriminate|].
  apply (@X13_openai_complete_first_choice answering system_prompt
           (of_ascii "hello") default_temperature []
           (Some (of_ascii "Start Bo.")) [Some (of_ascii "Sit Bo.")]);
    [discriminate | reflexivity].
Defined.


(** X15. The search requests of a run are those for the names it searches,
    in order, each asking for 2 results; none is sent with an empty
    credential or for an empty name. *)
Theorem X15_search_requests (e : env) (i : inputs) :
  search_requests (snd (run e i))
  = map (fun n => search_request_for e n 2) (searched e i)
  /\ Forall (fun req =>
               sr_num req = 2
               /\ sr_developerKey req = GOOGLE_API_KEY e /\ GOOGLE_API_KEY e <> []
               /\ sr_cx req = GOOGLE_CSE_ID e /\ GOOGLE_CSE_ID e <> []
               /\ exists n, n <> [] /\ sr_q req = news_query n)
            (search_requests (snd (run e i))).
Proof.
  assert (Heq : search_requests (snd (run e i))
                = map (fun n => search_request_for e n 2) (searched e i)).
  { unfold searched.
    destruct (run_cases e i) as [[HS ->]|(r & Hne & _ & _ & _ & _ & ->)];
      cbv zeta in *.
    - rewrite HS. reflexivity.
    - cbn [snd]. rewrite !search_requests_app, search_requests_news_events.
      destruct (ai_events_quiet e i (rep_user_prompt r)) as (-> & _).
      cbn [search_requests results_events download_event app].
      rewrite app_nil_r.
      rewrite filter_searchable by apply names_for_news_truthy.
      destruct (parse_pasted_list (starters_txt i)); [congruence|].
      cbn [truthy andb].
      destruct (use_google i);
        destruct (truthy (GOOGLE_CSE_ID e) && truthy (GOOGLE_API_KEY e))%bool;
        reflexivity. }
  split; [exact Heq|]. rewrite Heq. unfold searched.
  destruct (truthy (parse_pasted_list (starters_txt i)) && use_google i
            && (truthy (GOOGLE_CSE_ID e) && truthy (GOOGLE_API_KEY e)))%bool
    eqn:Hc; [|constructor].
  apply andb_prop in Hc. destruct Hc as [_ Hc].
  apply andb_prop in Hc. destruct Hc as [Hcx Hkey].
  apply Forall_forall. intros req Hreq. apply in_map_iff in Hreq.
  destruct Hreq as (n & <- & Hn).
  pose proof (names_for_news_truthy (parse_pasted_list (starters_txt i))
                (parse_pasted_list (bench_txt i))
                (parse_pasted_list (trade_targets_txt i))
                (parse_pasted_list (fa_txt i))) as Ht.
  rewrite Forall_forall in Ht. specialize (Ht n Hn).
  cbn [search_request_for sr_num sr_developerKey sr_cx sr_q].
  repeat split.
  - intros E. rewrite E in Hkey. discriminate.
  - intros E. rewrite E in Hcx. discriminate.
  - exists n. split; [|reflexivity]. intros E. rewrite E in Ht. discriminate.
Qed.


(** X17. The order of a run: first the search calls, then the completion
    call, then the results. No completion call and no result comes before
    the last search call, and no call of either kind is made once a result
    is shown. *)
Theorem X17_calls_before_results (e : env) (i : inputs) :
  exists tr1 tr2 tr3,
    snd (run e i) = tr1 ++ tr2 ++ tr3
    /\ existsb is_completion tr1 = false /\ existsb is_output tr1 = false
    /\ existsb is_search tr2 = false /\ existsb is_output tr2 = false
    /\ existsb is_search tr3 = false /\ existsb is_completion tr3 = false.
Proof.
  destruct (run_cases e i) as [[HS ->]|(r & Hne & _ & _ & _ & _ & ->)];
    cbv zeta in *.
  - exists [], [], [error_event]. repeat split.
  - exists (news_events e i
              (names_for_news (parse_pasted_list (starters_txt i))
                 (parse_pasted_list (bench_txt i))
                 (parse_pasted_list (trade_targets_txt i))
                 (parse_pasted_list (fa_txt i)))),
           (ai_events e i (rep_user_prompt r)),
           (results_events (rep_analysis r) ++ [download_event (rep_export r)]).
    destruct (news_events_quiet e i
                (names_for_news (parse_pasted_list (starters_txt i))
                   (parse_pasted_list (bench_txt i))
                   (parse_pasted_list (trade_targets_txt i))
                   (parse_pasted_list (fa_txt i)))) as (_ & H1 & H2).
    destruct (ai_events_quiet e i (rep_user_prompt r)) as (_ & _ & H3 & H4).
    repeat split; assumption.
Qed.

(** X18. What a completed run shows is what it exports: the page shows the
    analysis once and offers one download, the serialised export; the
    export's ["analysis"] is the text shown, its ["inputs"] is the payload
    embedded in the prompt, and the payload's ["google_snippets"] is the
    snippet map. *)
Theorem X18_report_consistency (e : env) (i : inputs) (r : report) (tr : trace) :
  run e i = (Ret r, tr) ->
  let payload :=
    user_payload i (parse_pasted_list (starters_txt i))
      (parse_pasted_list (bench_txt i)) (parse_pasted_list (fa_txt i))
      (parse_pasted_list (trade_targets_txt i)) (rep_snippets r) in
  rep_user_prompt r = user_prompt payload
  /\ json_get (of_ascii "inputs") (rep_export r) = Some payload
  /\ json_get (of_ascii "analysis") (rep_export r)
     = Some (analysis_json (rep_analysis r))
  /\ json_get (of_ascii "google_snippets") payload
     = Some (JDict (map (fun kv => (fst kv, JList (map snippet_json (snd kv))))
                        (rep_snippets r)))
  /\ filter is_output tr
     = [EvWrite (rep_analysis r); download_event (rep_export r)].
Proof.
  intros Hrun. cbv zeta.
  destruct (run_cases e i)
    as [[_ Hhalt]|(r' & _ & _ & _ & Hprompt & Hexport & Hrun')];
    cbv zeta in *; [congruence|].
  rewrite Hrun in Hrun'. injection Hrun' as <- ->.
  split; [exact Hprompt|]. rewrite Hexport.
  split; [reflexivity|]. split; [reflexivity|]. split; [reflexivity|].
  rewrite <- Hexport, !filter_app.
  destruct (news_events_quiet e i
              (names_for_news (parse_pasted_list (starters_txt i))
                 (parse_pasted_list (bench_txt i))
                 (parse_pasted_list (trade_targets_txt i))
                 (parse_pasted_list (fa_txt i)))) as (_ & _ & H1).
  destruct (ai_events_quiet e i (rep_user_prompt r)) as (_ & _ & _ & H2).
  rewrite (existsb_false_filter _ _ H1), (existsb_false_filter _ _ H2).
  reflexivity.
Qed.

Lemma X18_witness :
  exists r tr,
    run answering (form true true (of_ascii "QB Bo, RB Al")) = (Ret r, tr)
    /\ rep_analysis r = Some (of_ascii "Start Bo.")
    /\ json_get (of_ascii "analysis") (rep_export r)
       = Some (analysis_json (rep_analysis r))
    /\ filter is_output tr
       = [EvWrite (rep_analysis r); download_event (rep_export r)].
Proof.
  remember (run answering (form true true (of_ascii "QB Bo, RB Al"))) as x eqn:E.
  destruct x as [[r|ex|] tr];
    [|exfalso; vm_compute in E; discriminate E ..].
  exists r, tr. split; [reflexivity|].
  destruct (@X18_report_consistency answering
              (form true true (of_ascii "QB Bo, RB Al")) r tr (eq_sym E))
    as (_ & _ & H3 & _ & H5).
  split; [|split; assumption].
  vm_compute in E. injection E as -> _. reflexivity.
Defined.

(** X19. Serialising a report and encoding it never fails, whatever
    characters the names, the notes and the analysis hold: the serialised
    text is plain ASCII, and its UTF-8 encoding is the text itself. *)
Theorem X19_report_encoding_never_fails (j : json) :
  is_ascii (json_dumps j) = true
  /\ encode_utf8 (json_dumps j) = inr (json_dumps j).
Proof. split; [apply dumps_ascii | apply encode_json_dumps]. Qed.

(** X20. If the search service returns no more items than it is asked for,
    every entry of the snippet map holds at most 2 snippets. *)
Theorem X20_at_most_two_snippets (e : env) (i : inputs) (r : report) (tr : trace) :
  (forall tr req items,
     search_service e tr req = inr {| res_items := Some items |} ->
     length items <= sr_num req) ->
  run e i = (Ret r, tr) ->
  Forall (fun kv => length (snd kv) <= 2) (rep_snippets r).
Proof.
  intros Hnum Hrun.
  destruct (run_cases e i) as [[_ Hhalt]|(r' & _ & Hp & _ & _ & _ & Hrun')];
    cbv zeta in *; [congruence|].
  rewrite Hrun in Hrun'. injection Hrun' as <- _.
  refine (proj2 (proj2 (@pull_news_inv e i (fun l => length l <= 2)
                          _ _ _ _ _ _ _ _ _ Hp))).
  - cbn. lia.
  - intros tr0 name [[items|]] Hres; unfold snippets_of_response;
      cbn [res_items]; rewrite length_map; [|cbn; lia].
    exact (Hnum _ _ _ Hres).
Qed.

Lemma X20_witness :
  exists r tr,
    run modest (form false true (of_ascii "QB Bo, RB Al")) = (Ret r, tr)
    /\ Forall (fun kv => length (snd kv) <= 2) (rep_snippets r)
    /\ map (fun kv => length (snd kv)) (rep_snippets r) = [2; 2].
Proof.
  remember (run modest (form false true (of_ascii "QB Bo, RB Al"))) as x eqn:E.
  destruct x as [[r|ex|] tr];
    [|exfalso; vm_compute in E; discriminate E ..].
  exists r, tr. split; [reflexivity|]. split.
  - apply (@X20_at_most_two_snippets modest
             (form false true (of_ascii "QB Bo, RB Al")) r tr); [|exact (eq_sym E)].
    intros tr0 req items Hres. cbn in Hres. injection Hres as <-.
    rewrite repeat_length. apply Nat.le_refl.
  - vm_compute in E. injection E as -> _. reflexivity.
Defined.



(** X22. The analysis text of a completed run: the manual template when the
    AI toggle is off, also when the credential is set; with the toggle on,
    the completion client's value for the assembled prompt, which is the
    disabled-feature placeholder when the credential is missing. *)
Theorem X22_analysis_text_source (e : env) (i : inputs) (r : report) (tr : trace) :
  run e i = (Ret r, tr) ->
  (use_ai i = false -> rep_analysis r = Some manual_template)
  /\ (use_ai i = true -> OPENAI_API_KEY e = [] ->
      rep_analysis r = Some ai_disabled_placeholder)
  /\ (use_ai i = true -> forall ex,
      (forall tr req, completion_service e tr req = inl ex) ->
      OPENAI_API_KEY e <> [] ->
      rep_analysis r = Some (ai_error_placeholder ex)).
Proof.
  intros Hrun.
  destruct (run_cases e i) as [[_ Hhalt]|(r' & _ & _ & Ha & _ & _ & Hrun')];
    cbv zeta in *; [congruence|].
  rewrite Hrun in Hrun'. injection Hrun' as <- _.
  destruct (analysis_text_run e i (rep_user_prompt r)
              (news_events e i
                 (names_for_news (parse_pasted_list (starters_txt i))
                    (parse_pasted_list (bench_txt i))
                    (parse_pasted_list (trade_targets_txt i))
                    (parse_pasted_list (fa_txt i)))))
    as (analysis & Ha' & Hoff & Hon).
  rewrite Ha in Ha'. injection Ha' as <-.
  split; [exact Hoff|]. split.
  - intros Hai Hkey. rewrite (Hon Hai). unfold completion_value.
    rewrite Hkey. reflexivity.
  - intros Hai ex Hfail Hkey. rewrite (Hon Hai). unfold completion_value.
    rewrite Hfail. destruct (OPENAI_API_KEY e); [congruence | reflexivity].
Qed.

Lemma X22_witness :
  exists r tr,
    run keyed (form true false (of_ascii "QB Bo, RB Al")) = (Ret r, tr)
    /\ rep_analysis r = Some (ai_error_placeholder unreachable).
Proof.
  remember (run keyed (form true false (of_ascii "QB Bo, RB Al"))) as x eqn:E.
  destruct x as [[r|ex|] tr];
    [|exfalso; vm_compute in E; discriminate E ..].
  exists r, tr. split; [reflexivity|].
  destruct (@X22_analysis_text_source keyed
              (form true false (of_ascii "QB Bo, RB Al")) r tr (eq_sym E))
    as (_ & _ & H).
  apply H; [reflexivity | reflexivity | discriminate].
Defined.
